(** * vault-vars-generator: configuration validation and branch resolution

    A shallow embedding of [internal/config] (the schema, [Normalize] and
    [Validate]) and of [internal/validate/target.go] ([TargetForBranch] and
    [branchCandidates]), with the properties of the specification stated
    over it.

    Go strings are byte strings: they are modelled as [string], one [ascii]
    per byte.  A pointer to bool is an [option bool], a slice is a [list], the two
    Go maps of [Validate] are a [gmap] and a [gset]. *)

From Stdlib Require Import Ascii String NArith DecimalString Bool Lia.
From stdpp Require Import gmap strings list fin_maps.


(** ** The parts of Go's [strings] package the code calls *)

Module strings.

(** The six ASCII bytes of [asciiSpace]: tab, LF, VT, FF, CR and space. *)
Definition asciiSpace (c : ascii) : bool :=
  let n := N_of_ascii c in
  ((0x09 <=? n) && (n <=? 0x0D))%N || (n =? 0x20)%N.

(** [unicode.IsSpace] on a rune encoded on two bytes: U+0085 and U+00A0. *)
Definition space2 (c1 c2 : ascii) : bool :=
  let a := N_of_ascii c1 in
  let b := N_of_ascii c2 in
  ((a =? 0xC2) && ((b =? 0x85) || (b =? 0xA0)))%N.

(** [unicode.IsSpace] on a rune encoded on three bytes: U+1680,
    U+2000..U+200A, U+2028, U+2029, U+202F, U+205F and U+3000. *)
Definition space3 (c1 c2 c3 : ascii) : bool :=
  let a := N_of_ascii c1 in
  let b := N_of_ascii c2 in
  let c := N_of_ascii c3 in
  (((a =? 0xE1) && (b =? 0x9A) && (c =? 0x80))
   || ((a =? 0xE2) && (b =? 0x80)
       && (((0x80 <=? c) && (c <=? 0x8A))
           || (c =? 0xA8) || (c =? 0xA9) || (c =? 0xAF)))
   || ((a =? 0xE2) && (b =? 0x81) && (c =? 0x9F))
   || ((a =? 0xE3) && (b =? 0x80) && (c =? 0x80)))%N.

(** [TrimLeftFunc(s, unicode.IsSpace)]: runes are decoded from the front
    and dropped while they are white space.  A byte that starts no valid
    encoding decodes to [RuneError], which is not white space. *)
Fixpoint trimLeft (s : string) : string :=
  match s with
  | EmptyString => s
  | String c1 r1 =>
      if asciiSpace c1 then trimLeft r1
      else match r1 with
           | EmptyString => s
           | String c2 r2 =>
               if space2 c1 c2 then trimLeft r2
               else match r2 with
                    | EmptyString => s
                    | String c3 r3 =>
                        if space3 c1 c2 c3 then trimLeft r3 else s
                    end
           end
  end.

Fixpoint rev_append (s acc : string) : string :=
  match s with
  | EmptyString => acc
  | String c r => rev_append r (String c acc)
  end.

Definition rev (s : string) : string := rev_append s EmptyString.

(** The same scan from the end of the string ([DecodeLastRuneInString]),
    written over the reversed bytes: the bytes of a rune arrive last
    byte first. *)
Fixpoint trimLeftRev (s : string) : string :=
  match s with
  | EmptyString => s
  | String c1 r1 =>
      if asciiSpace c1 then trimLeftRev r1
      else match r1 with
           | EmptyString => s
           | String c2 r2 =>
               if space2 c2 c1 then trimLeftRev r2
               else match r2 with
                    | EmptyString => s
                    | String c3 r3 =>
                        if space3 c3 c2 c1 then trimLeftRev r3 else s
                    end
           end
  end.

Definition trimRight (s : string) : string := rev (trimLeftRev (rev s)).

(** [strings.TrimSpace]: leading, then trailing white space removed. *)
Definition TrimSpace (s : string) : string := trimRight (trimLeft s).

(** [strings.HasPrefix(s, prefix)]. *)
Definition HasPrefix (s prefix : string) : bool := String.prefix prefix s.

Fixpoint drop (n : nat) (s : string) : string :=
  match n, s with
  | O, _ => s
  | S n', String _ r => drop n' r
  | S _, EmptyString => EmptyString
  end.

(** [strings.TrimPrefix(s, prefix)]: [s[len(prefix):]] when the prefix is
    there, [s] otherwise. *)
Definition TrimPrefix (s prefix : string) : string :=
  if HasPrefix s prefix then drop (String.length prefix) s else s.

(** [strings.Join(elems, sep)]. *)
Definition Join (elems : list string) (sep : string) : string :=
  String.concat sep elems.

End strings.

(** [s == ""] and [s != ""] on Go strings. *)
Definition isEmpty (s : string) : bool := String.eqb s "".

(** ** internal/config: the schema *)

Record Target := mkTarget {
  AccountID : string;
  Namespace : string;
  NamespaceAlias : string
}.

Record BranchOverride := mkBranchOverride {
  OName : string;
  OVault : Target;
  VaultEnabled : option bool
}.

Record TargetWrapper := mkTargetWrapper { Vault : Target }.

Record Secret := mkSecret {
  Name : string;
  Default : TargetWrapper;
  BranchOverrides : list BranchOverride
}.

Record File := mkFile { VaultSecrets : list Secret }.

(** [config.Target{}], the zero value. *)
Definition zeroTarget : Target := mkTarget "" "" "".

(** ** Normalisation *)

(** [Target.Normalize] (pointer receiver). *)
Definition Target_Normalize (t : Target) : Target :=
  if isEmpty (Namespace t)
  then mkTarget (AccountID t) (NamespaceAlias t) (NamespaceAlias t)
  else t.

Definition BranchOverride_Normalize (o : BranchOverride) : BranchOverride :=
  mkBranchOverride (OName o) (Target_Normalize (OVault o)) (VaultEnabled o).

(** [Secret.Normalize]: the default target, then every override's. *)
Definition Secret_Normalize (s : Secret) : Secret :=
  mkSecret (Name s)
           (mkTargetWrapper (Target_Normalize (Vault (Default s))))
           (map BranchOverride_Normalize (BranchOverrides s)).

(** [File.Normalize]. *)
Definition File_Normalize (f : File) : File :=
  mkFile (map Secret_Normalize (VaultSecrets f)).

(** ** Predicates on targets *)

Definition blank (s : string) : bool := isEmpty (strings.TrimSpace s).

(** [targetDefined]. *)
Definition targetDefined (t : Target) : bool :=
  negb (blank (AccountID t)) || negb (blank (Namespace t)).

(** [targetsEqual]. *)
Definition targetsEqual (a b : Target) : bool :=
  String.eqb (strings.TrimSpace (AccountID a)) (strings.TrimSpace (AccountID b))
  && String.eqb (strings.TrimSpace (Namespace a)) (strings.TrimSpace (Namespace b)).

(** The effective [vault_enabled] of an override: a nil pointer means true. *)
Definition effectiveEnabled (o : BranchOverride) : bool :=
  match VaultEnabled o with
  | Some b => b
  | None => true
  end.

(** ** internal/validate: the branch resolver *)

(** [branchCandidates]. *)
Definition branchCandidates (branch : string) : list string :=
  let branch := strings.TrimSpace branch in
  if isEmpty branch then []
  else
    let candidates := [branch] in
    let candidates :=
      if strings.HasPrefix branch "refs/heads/"
      then candidates ++ [strings.TrimPrefix branch "refs/heads/"]
      else candidates in
    let candidates :=
      if strings.HasPrefix branch "origin/"
      then candidates ++ [strings.TrimPrefix branch "origin/"]
      else candidates in
    candidates.

(** The body of the inner loop of [TargetForBranch] once the name of the
    override has matched the candidate: the three [return]s. *)
Definition overrideResult (override : BranchOverride) : Target * bool :=
  if negb (effectiveEnabled override) then (zeroTarget, false)
  else if isEmpty (AccountID (OVault override))
          && isEmpty (Namespace (OVault override))
       then (zeroTarget, false)
       else (OVault override, true).

(** The inner loop: the overrides in declared order, for one candidate.
    [None] when the loop ends without returning. *)
Fixpoint scanOverrides (candidate : string) (overrides : list BranchOverride)
  : option (Target * bool) :=
  match overrides with
  | [] => None
  | override :: rest =>
      if negb (String.eqb (OName override) candidate)
      then scanOverrides candidate rest
      else Some (overrideResult override)
  end.

(** The outer loop: the candidates in list order. *)
Fixpoint scanCandidates (candidates : list string)
  (overrides : list BranchOverride) : option (Target * bool) :=
  match candidates with
  | [] => None
  | candidate :: rest =>
      match scanOverrides candidate overrides with
      | Some r => Some r
      | None => scanCandidates rest overrides
      end
  end.

(** [TargetForBranch]. *)
Definition TargetForBranch (secret : Secret) (branch : string) : Target * bool :=
  match scanCandidates (branchCandidates branch) (BranchOverrides secret) with
  | Some r => r
  | None =>
      if isEmpty (AccountID (Vault (Default secret)))
         && isEmpty (Namespace (Vault (Default secret)))
      then (zeroTarget, false)
      else (Vault (Default secret), true)
  end.

(** ** internal/config: errors *)

(** [ValidationError]. *)
Record ValidationError := mkValidationError { Issues : list string }.

(** The values of Go's [error] interface that this code builds: the result
    of [errors.New] or of [fmt.Errorf] without [%w], the result of
    [fmt.Errorf] with [%w] (the formatted message and the wrapped error),
    and a pointer to a [ValidationError]. *)
Inductive error :=
| errorString (msg : string)
| wrapError (msg : string) (err : error)
| ValidationErrorPtr (v : ValidationError).

(** [ValidationError.Error]. *)
Definition ValidationError_Error (v : ValidationError) : string :=
  "configuration validation failed: " +:+ strings.Join (Issues v) "; ".

(** The [Error] method of an [error] value. *)
Definition Error (e : error) : string :=
  match e with
  | errorString msg => msg
  | wrapError msg _ => msg
  | ValidationErrorPtr v => ValidationError_Error v
  end.

(** [ValidationError.Is]: a type assertion on the target. *)
Definition ValidationError_Is (v : ValidationError) (target : error) : bool :=
  match target with
  | ValidationErrorPtr _ => true
  | _ => false
  end.

(** [Unwrap]: only the result of [fmt.Errorf] with [%w] has one. *)
Definition Unwrap (e : error) : option error :=
  match e with
  | wrapError _ err => Some err
  | _ => None
  end.

Section ErrorsIs.

(** Go's [==] on two interface values that hold pointers: the identity of
    the pointers, which the values of [error] do not record. *)
Variable same : error -> error -> bool.

(** [errors.Is(err, target)]: along the [Unwrap] chain, [err == target]
    or the [Is] method of [err], when it has one. *)
Fixpoint errors_Is (err target : error) : bool :=
  same err target
  || match err with
     | ValidationErrorPtr v => ValidationError_Is v target
     | wrapError _ inner => errors_Is inner target
     | errorString _ => false
     end.

End ErrorsIs.

(** The [%d] verb on an index. *)
Definition itoa (n : nat) : string := NilEmpty.string_of_uint (Nat.to_uint n).

Definition zeroOverride : BranchOverride := mkBranchOverride "" zeroTarget None.
Definition zeroSecret : Secret := mkSecret "" (mkTargetWrapper zeroTarget) [].

(** ** internal/config: validation *)

Section Validation.

(** The [%q] verb of [fmt] ([strconv.Quote]), from Go's library. *)
Variable quote : string -> string.

(** [validateTarget]. *)
Definition validateTarget (t : Target) (context : string) : option error :=
  if blank (AccountID t) && blank (Namespace t)
  then Some (errorString (context +:+ ": missing account_id and namespace"))
  else
    let issues : list string := [] in
    let issues :=
      if blank (AccountID t) then issues ++ ["account_id is required"]
      else issues in
    let issues :=
      if blank (Namespace t) then issues ++ ["namespace is required"]
      else issues in
    if (0 <? length issues)%nat
    then Some (errorString (context +:+ ": " +:+ strings.Join issues ", "))
    else None.

(** [issues = append(issues, err.Error())] when [err != nil]. *)
Definition appendErr (issues : list string) (err : option error) : list string :=
  match err with
  | Some e => issues ++ [Error e]
  | None => issues
  end.

(** One iteration of the loop over [s.BranchOverrides], at index [j]: the
    issues and [overrideNames] before and after. *)
Definition overrideIter (s : Secret) (hasDefault : bool)
  (st : list string * gset string) (j : nat) : list string * gset string :=
  let '(issues, overrideNames) := st in
  let o := nth j (BranchOverrides s) zeroOverride in
  let '(issues, overrideNames) :=
    if blank (OName o)
    then (issues ++ ["secret " +:+ quote (Name s) +:+ " override at index "
                       +:+ itoa j +:+ " missing name"],
          overrideNames)
    else
      ((if bool_decide (OName o ∈ overrideNames)
        then issues ++ ["secret " +:+ quote (Name s)
                          +:+ " has duplicate override for branch "
                          +:+ quote (OName o)]
        else issues),
       {[OName o]} ∪ overrideNames) in
  let enabled := effectiveEnabled o in
  if negb enabled then
    ((if targetDefined (OVault o)
      then issues ++ ["secret " +:+ quote (Name s) +:+ " override "
                        +:+ quote (OName o)
                        +:+ " disables vault but defines a vault target"]
      else issues),
     overrideNames)
  else if negb (targetDefined (OVault o)) then
    (issues ++ ["secret " +:+ quote (Name s) +:+ " override "
                  +:+ quote (OName o)
                  +:+ " must define a vault target when vault is enabled"],
     overrideNames)
  else
    let issues :=
      appendErr issues
        (validateTarget (OVault o)
           ("secret " +:+ quote (Name s) +:+ " override " +:+ quote (OName o))) in
    let issues :=
      if hasDefault && targetsEqual (OVault o) (Vault (Default s))
      then issues ++ ["secret " +:+ quote (Name s) +:+ " override "
                        +:+ quote (OName o)
                        +:+ " must not match the default vault target"]
      else issues in
    (issues, overrideNames).

(** One iteration of the loop over [f.VaultSecrets], at index [i]: the
    issues and [seenNames] before and after. *)
Definition secretIter (f : File) (st : list string * gmap string nat)
  (i : nat) : list string * gmap string nat :=
  let '(issues, seenNames) := st in
  let s := nth i (VaultSecrets f) zeroSecret in
  let '(issues, seenNames) :=
    if blank (Name s)
    then (issues ++ ["secret at index " +:+ itoa i +:+ " is missing a name"],
          seenNames)
    else
      let seenNames :=
        <[Name s := S (default 0%nat (seenNames !! Name s))]> seenNames in
      ((if (1 <? default 0%nat (seenNames !! Name s))%nat
        then issues ++ ["duplicate secret name " +:+ quote (Name s)]
        else issues),
       seenNames) in
  let hasDefault := targetDefined (Vault (Default s)) in
  let issues :=
    if hasDefault
    then appendErr issues
           (validateTarget (Vault (Default s))
              ("secret " +:+ quote (Name s) +:+ " default"))
    else issues in
  let issues :=
    if negb hasDefault && (length (BranchOverrides s) =? 0)%nat
    then issues ++ ["secret " +:+ quote (Name s)
                      +:+ " must define a default target or at least one branch override"]
    else issues in
  let overrideNames : gset string := ∅ in
  let '(issues, _) :=
    fold_left (overrideIter s hasDefault)
              (seq 0 (length (BranchOverrides s))) (issues, overrideNames) in
  (issues, seenNames).

(** [File.Validate]: [None] is the nil error. *)
Definition Validate (f : File) : option error :=
  if (length (VaultSecrets f) =? 0)%nat
  then Some (ValidationErrorPtr
               (mkValidationError ["no vault_secrets entries defined"]))
  else
    let seenNames : gmap string nat := ∅ in
    let '(issues, _) :=
      fold_left (secretIter f) (seq 0 (length (VaultSecrets f)))
                ([], seenNames) in
    if (0 <? length issues)%nat
    then Some (ValidationErrorPtr (mkValidationError issues))
    else None.

(** What [Load] does once the bytes are parsed: normalise, validate, and
    return the document, or nil and the error of [Validate]. *)
Definition LoadParsed (cfg : File) : option File * option error :=
  let cfg := File_Normalize cfg in
  match Validate cfg with
  | Some err => (None, Some err)
  | None => (Some cfg, None)
  end.

(** [MustDefaultBranchTarget]. *)
Definition MustDefaultBranchTarget (s : Secret) : Target * option error :=
  if negb (targetDefined (Vault (Default s)))
  then (zeroTarget, Some (errorString "default vault target is not defined"))
  else match validateTarget (Vault (Default s)) "secret default" with
       | Some err => (zeroTarget, Some err)
       | None => (Vault (Default s), None)
       end.

End Validation.

(** A [%q] for the examples below: [strconv.Quote] on a string of printable
    ASCII bytes other than the double quote and the backslash, which it
    returns between double quotes. *)
Definition dq : string := String (ascii_of_nat 34) EmptyString.
Definition quotePlain (s : string) : string := dq +:+ s +:+ dq.

(** ** The checks of the specification

    A second description of validation, after the seven checks of the
    specification rather than after the code: a violation is a check that
    fails at a place of the document (a secret [i], or the override [j] of
    the secret [i]). *)

Inductive Violation :=
| NoSecrets
| SecretNameMissing (i : nat)
| SecretNameDuplicate (i : nat)
| DefaultNotValid (i : nat)
| SecretWithoutTarget (i : nat)
| OverrideNameMissing (i j : nat)
| OverrideNameDuplicate (i j : nat)
| DisabledWithTarget (i j : nat)
| EnabledWithoutTarget (i j : nat)
| OverrideNotValid (i j : nat)
| OverrideEqualsDefault (i j : nat).

(** A target is valid when both fields are non-empty after trimming. *)
Definition targetValid (t : Target) : bool :=
  negb (blank (AccountID t)) && negb (blank (Namespace t)).

Definition atSecret (f : File) (i : nat) (P : Secret -> bool) : bool :=
  match VaultSecrets f !! i with
  | Some s => P s
  | None => false
  end.

Definition atOverride (f : File) (i j : nat)
  (P : Secret -> BranchOverride -> bool) : bool :=
  atSecret f i (fun s =>
    match BranchOverrides s !! j with
    | Some o => P s o
    | None => false
    end).

(** Does the document break this check at this place? *)
Definition violates (f : File) (v : Violation) : bool :=
  match v with
  | NoSecrets => (length (VaultSecrets f) =? 0)%nat
  | SecretNameMissing i => atSecret f i (fun s => blank (Name s))
  | SecretNameDuplicate i =>
      atSecret f i (fun s =>
        negb (blank (Name s))
        && existsb (fun s' => String.eqb (Name s') (Name s))
                   (take i (VaultSecrets f)))
  | DefaultNotValid i =>
      atSecret f i (fun s =>
        targetDefined (Vault (Default s)) && negb (targetValid (Vault (Default s))))
  | SecretWithoutTarget i =>
      atSecret f i (fun s =>
        negb (targetDefined (Vault (Default s)))
        && (length (BranchOverrides s) =? 0)%nat)
  | OverrideNameMissing i j => atOverride f i j (fun _ o => blank (OName o))
  | OverrideNameDuplicate i j =>
      atOverride f i j (fun s o =>
        negb (blank (OName o))
        && existsb (fun o' => String.eqb (OName o') (OName o))
                   (take j (BranchOverrides s)))
  | DisabledWithTarget i j =>
      atOverride f i j (fun _ o =>
        negb (effectiveEnabled o) && targetDefined (OVault o))
  | EnabledWithoutTarget i j =>
      atOverride f i j (fun _ o =>
        effectiveEnabled o && negb (targetDefined (OVault o)))
  | OverrideNotValid i j =>
      atOverride f i j (fun _ o =>
        effectiveEnabled o && targetDefined (OVault o)
        && negb (targetValid (OVault o)))
  | OverrideEqualsDefault i j =>
      atOverride f i j (fun s o =>
        effectiveEnabled o && targetDefined (Vault (Default s))
        && targetsEqual (OVault o) (Vault (Default s)))
  end.

(** The checks at one override, at one secret and in the whole document, in
    the order of the specification. *)
Definition overrideChecks (i j : nat) : list Violation :=
  [OverrideNameMissing i j; OverrideNameDuplicate i j; DisabledWithTarget i j;
   EnabledWithoutTarget i j; OverrideNotValid i j; OverrideEqualsDefault i j].

Definition secretChecks (f : File) (i : nat) : list Violation :=
  [SecretNameMissing i; SecretNameDuplicate i; DefaultNotValid i;
   SecretWithoutTarget i]
  ++ flat_map (overrideChecks i)
       (seq 0 (length (BranchOverrides (nth i (VaultSecrets f) zeroSecret)))).

Definition documentChecks (f : File) : list Violation :=
  NoSecrets :: flat_map (secretChecks f) (seq 0 (length (VaultSecrets f))).

(** Every violation of the document, in document order. *)
Definition violationsOf (f : File) : list Violation :=
  List.filter (violates f) (documentChecks f).

Section Issues.

Variable quote : string -> string.

(** The field-level issue of a target that is defined and not valid. *)
Definition fieldIssue (t : Target) : string :=
  if blank (AccountID t) then "account_id is required"
  else "namespace is required".

(** The issue string of a violation: the secret by its name (by its index
    when the name is missing), the override by its name (by its index when
    the name is missing). *)
Definition issueOf (f : File) (v : Violation) : string :=
  let secret i := quote (Name (nth i (VaultSecrets f) zeroSecret)) in
  let override i j :=
    quote (OName (nth j (BranchOverrides (nth i (VaultSecrets f) zeroSecret))
                    zeroOverride)) in
  match v with
  | NoSecrets => "no vault_secrets entries defined"
  | SecretNameMissing i => "secret at index " +:+ itoa i +:+ " is missing a name"
  | SecretNameDuplicate i => "duplicate secret name " +:+ secret i
  | DefaultNotValid i =>
      ("secret " +:+ secret i +:+ " default") +:+ ": "
      +:+ fieldIssue (Vault (Default (nth i (VaultSecrets f) zeroSecret)))
  | SecretWithoutTarget i =>
      "secret " +:+ secret i
      +:+ " must define a default target or at least one branch override"
  | OverrideNameMissing i j =>
      "secret " +:+ secret i +:+ " override at index " +:+ itoa j
      +:+ " missing name"
  | OverrideNameDuplicate i j =>
      "secret " +:+ secret i +:+ " has duplicate override for branch "
      +:+ override i j
  | DisabledWithTarget i j =>
      "secret " +:+ secret i +:+ " override " +:+ override i j
      +:+ " disables vault but defines a vault target"
  | EnabledWithoutTarget i j =>
      "secret " +:+ secret i +:+ " override " +:+ override i j
      +:+ " must define a vault target when vault is enabled"
  | OverrideNotValid i j =>
      ("secret " +:+ secret i +:+ " override " +:+ override i j) +:+ ": "
      +:+ fieldIssue (OVault (nth j (BranchOverrides (nth i (VaultSecrets f) zeroSecret))
                                zeroOverride))
  | OverrideEqualsDefault i j =>
      "secret " +:+ secret i +:+ " override " +:+ override i j
      +:+ " must not match the default vault target"
  end.

(** The result of validation as the specification has it: acceptance, or
    the issues of all the violations. *)
Definition resultOf (issues : list string) : option error :=
  match issues with
  | [] => None
  | _ :: _ => Some (ValidationErrorPtr (mkValidationError issues))
  end.

End Issues.

(** ** Loop invariants of [Validate] *)

(** What [overrideNames] holds before iteration [j]. *)
Definition namesInv (s : Secret) (j : nat) (names : gset string) : Prop :=
  forall n, blank n = false ->
    bool_decide (n ∈ names)
    = existsb (fun o' => String.eqb (OName o') n) (take j (BranchOverrides s)).

(** What [seenNames] holds before iteration [i]. *)
Definition seenInv (f : File) (i : nat) (seen : gmap string nat) : Prop :=
  forall n, blank n = false ->
    (0 <? default 0 (seen !! n))
    = existsb (fun s' => String.eqb (Name s') n) (take i (VaultSecrets f)).

(** The place of a violation: its secret, its override. *)
Definition secretIndex (v : Violation) : option nat :=
  match v with
  | NoSecrets => None
  | SecretNameMissing i | SecretNameDuplicate i | DefaultNotValid i
  | SecretWithoutTarget i => Some i
  | OverrideNameMissing i _ | OverrideNameDuplicate i _
  | DisabledWithTarget i _ | EnabledWithoutTarget i _
  | OverrideNotValid i _ | OverrideEqualsDefault i _ => Some i
  end.

Definition overrideIndex (v : Violation) : option nat :=
  match v with
  | OverrideNameMissing _ j | OverrideNameDuplicate _ j
  | DisabledWithTarget _ j | EnabledWithoutTarget _ j
  | OverrideNotValid _ j | OverrideEqualsDefault _ j => Some j
  | _ => None
  end.

(** ** Documents of the scenarios *)

Definition tA1N1 : Target := mkTarget "A1" "N1" "".

(** Scenario A: a default target and no override. *)
Definition secretA : Secret := mkSecret "x" (mkTargetWrapper tA1N1) [].

(** Scenario B: an override that opts the branch out. *)
Definition secretB : Secret :=
  mkSecret "x" (mkTargetWrapper tA1N1) [mkBranchOverride "dev" zeroTarget (Some false)].

(** Scenario C: an override with its own target. *)
Definition secretC : Secret :=
  mkSecret "x" (mkTargetWrapper tA1N1)
    [mkBranchOverride "qa" (mkTarget "A2" "N2" "") None].

(** Scenario D: a disabled override that still defines a target. *)
Definition overrideD : BranchOverride :=
  mkBranchOverride "dev" (mkTarget "A9" "N9" "") (Some false).
Definition secretD : Secret := mkSecret "x" (mkTargetWrapper tA1N1) [overrideD].
Definition docD : File := mkFile [secretD].

(** An override that repeats the default target. *)
Definition overrideSame : BranchOverride :=
  mkBranchOverride "dev" (mkTarget " A1" "N1 " "") None.
Definition secretSame : Secret :=
  mkSecret "x" (mkTargetWrapper tA1N1) [overrideSame].
Definition docSame : File := mkFile [secretSame].

(** A release branch. *)
Definition overrideRelease : BranchOverride :=
  mkBranchOverride "release" (mkTarget "A3" "N3" "") None.
Definition secretRelease : Secret :=
  mkSecret "x" (mkTargetWrapper tA1N1)
    [mkBranchOverride "qa" (mkTarget "A2" "N2" "") None; overrideRelease].

(** A target whose account_id is one space: not defined for [targetDefined],
    not empty for [==]. *)
Definition tSpace : Target := mkTarget " " "" "".

(** An enabled override with that target. *)
Definition overrideSpace : BranchOverride := mkBranchOverride "dev" tSpace None.
Definition secretSpaceOverride : Secret :=
  mkSecret "x" (mkTargetWrapper tA1N1) [overrideSpace].

(** A secret with that target as its default, and a valid override. *)
Definition secretSpaceDefault : Secret :=
  mkSecret "x" (mkTargetWrapper tSpace)
    [mkBranchOverride "dev" (mkTarget "A2" "N2" "") None].
Definition docSpaceDefault : File := mkFile [secretSpaceDefault].

(** A document with several broken checks. *)
Definition docBroken : File :=
  mkFile [mkSecret "x" (mkTargetWrapper tA1N1)
            [overrideD;
             mkBranchOverride "dev" (mkTarget "A1 " "N1" "") None;
             mkBranchOverride " " (mkTarget "A1 " "" "") None];
          mkSecret "x" (mkTargetWrapper (mkTarget "" "N1" "")) [];
          mkSecret "" (mkTargetWrapper (mkTarget "" " " "")) []].

(** A document read with the legacy key of the namespace. *)
Definition docLegacy : File :=
  mkFile [mkSecret "x" (mkTargetWrapper (mkTarget "A1" "" "N1"))
            [mkBranchOverride "qa" (mkTarget "A2" "" "N2") None]].

(** ** What an accepted document looks like

    The invariants of the data model, stated on the document rather than
    through the checks. *)

Definition overrideOK (s : Secret) (o : BranchOverride) : Prop :=
  blank (OName o) = false
  /\ (effectiveEnabled o = false -> targetDefined (OVault o) = false)
  /\ (effectiveEnabled o = true ->
      targetValid (OVault o) = true
      /\ (targetDefined (Vault (Default s)) = true ->
          targetsEqual (OVault o) (Vault (Default s)) = false)).

Definition secretOK (s : Secret) : Prop :=
  blank (Name s) = false
  /\ (targetDefined (Vault (Default s)) = true ->
      targetValid (Vault (Default s)) = true)
  /\ (targetDefined (Vault (Default s)) = false -> BranchOverrides s <> [])
  /\ List.NoDup (map OName (BranchOverrides s))
  /\ Forall (overrideOK s) (BranchOverrides s).

Definition acceptable (f : File) : Prop :=
  VaultSecrets f <> []
  /\ List.NoDup (map Name (VaultSecrets f))
  /\ Forall secretOK (VaultSecrets f).

(** The document with every alias field emptied: two documents with the
    same image differ in alias fields only. *)
Definition Target_clearAlias (t : Target) : Target :=
  mkTarget (AccountID t) (Namespace t) "".

Definition BranchOverride_clearAlias (o : BranchOverride) : BranchOverride :=
  mkBranchOverride (OName o) (Target_clearAlias (OVault o)) (VaultEnabled o).

Definition Secret_clearAlias (s : Secret) : Secret :=
  mkSecret (Name s)
           (mkTargetWrapper (Target_clearAlias (Vault (Default s))))
           (map BranchOverride_clearAlias (BranchOverrides s)).

Definition File_clearAlias (f : File) : File :=
  mkFile (map Secret_clearAlias (VaultSecrets f)).

(** The head of a string is a white-space rune: what [trimLeft] drops. *)
Definition startsSpace (s : string) : bool :=
  match s with
  | EmptyString => false
  | String c1 r1 =>
      strings.asciiSpace c1
      || match r1 with
         | EmptyString => false
         | String c2 r2 =>
             strings.space2 c1 c2
             || match r2 with
                | EmptyString => false
                | String c3 _ => strings.space3 c1 c2 c3
                end
         end
  end.

(** The same on the reversed bytes: what [trimLeftRev] drops. *)
Definition startsSpaceRev (s : string) : bool :=
  match s with
  | EmptyString => false
  | String c1 r1 =>
      strings.asciiSpace c1
      || match r1 with
         | EmptyString => false
         | String c2 r2 =>
             strings.space2 c2 c1
             || match r2 with
                | EmptyString => false
                | String c3 _ => strings.space3 c3 c2 c1
                end
         end
  end.

(** ** cmd/vaultfetcher: the command line *)

(** One iteration of the loop of [normalizeArgs], at index [i]. *)
Definition normalizeIter (normalized : list string) (i : nat) : list string :=
  let arg := nth i normalized "" in
  if negb (strings.HasPrefix arg "-") || strings.HasPrefix arg "--"
     || (String.length arg <=? 2)%nat
  then normalized
  else <[i := "-" +:+ arg]> normalized.

(** [normalizeArgs]: nil for no argument, otherwise a copy updated in
    place. *)
Definition normalizeArgs (args : list string) : list string :=
  if (length args =? 0)%nat then []
  else
    let normalized := args in
    fold_left normalizeIter (seq 0 (length normalized)) normalized.

(** What [normalizeArgs] does to one argument. *)
Definition normalizeArg (arg : string) : string :=
  if negb (strings.HasPrefix arg "-") || strings.HasPrefix arg "--"
     || (String.length arg <=? 2)%nat
  then arg
  else "-" +:+ arg.

(** The environment variables of [resolveBranchName], in its order. *)
Definition envVars : list string :=
  ["BAMBOO_PLAN_REPOSITORY_BRANCH"; "BAMBOO_REPO_BRANCH"; "BAMBOO_BRANCH_NAME";
   "GIT_BRANCH"; "BRANCH_NAME"].

Section Environment.

(** [os.Getenv]: the empty string for a variable that is not set. *)
Variable Getenv : string -> string.

(** The loop of [resolveBranchName] over the variables. *)
Fixpoint firstEnv (vars : list string) : string :=
  match vars with
  | [] => ""
  | env :: rest =>
      let v := strings.TrimSpace (Getenv env) in
      if negb (isEmpty v) then v else firstEnv rest
  end.

(** [resolveBranchName]. *)
Definition resolveBranchName (flagValue : string) : string :=
  if negb (isEmpty (strings.TrimSpace flagValue)) then flagValue
  else firstEnv envVars.

End Environment.

Section Run.

Variable quote : string -> string.

(** [fetchPassword] at the address, token, mount, field and timeout of one
    run.  The request to the store is outside the program: its answer is
    taken as a function of the number of requests made before it in the run
    and of the target. *)
Variable fetchPassword : nat -> Target -> string * option error.

(** The loop of [Run] over [cfg.VaultSecrets]: the requests made so far and
    [results]; it ends with the error [Run] returns, or with the [results]
    handed to [writeOutput]. *)
Fixpoint fetchLoop (branch : string) (secrets : list Secret)
  (requests : list Target) (results : list string)
  : list Target * (error + list string) :=
  match secrets with
  | [] => (requests, inr results)
  | secret :: rest =>
      let '(target, enabled) := TargetForBranch secret branch in
      if negb enabled then fetchLoop branch rest requests results
      else
        let '(password, err) := fetchPassword (length requests) target in
        let requests := requests ++ [target] in
        match err with
        | Some e =>
            (requests,
             inl (wrapError ("fetch secret " +:+ quote (Name secret) +:+ ": "
                             +:+ Error e) e))
        | None =>
            fetchLoop branch rest requests
              (results ++ [Name secret +:+ "=" +:+ password])
        end
  end.


End Run.

(** The secrets of the document that the resolver sends to the store for
    the branch, in document order. *)
Definition fetched (branch : string) (secrets : list Secret) : list Secret :=
  List.filter (fun secret => snd (TargetForBranch secret branch)) secrets.

(** Every variable of [resolveBranchName] is unset or blank. *)
Definition noBranchInEnv (Getenv : string -> string) : Prop :=
  forall env, In env envVars -> blank (Getenv env) = true.

(** The entry of [results] for a secret and its password. *)

Definition entry (secret : Secret) (password : string) : string :=
  Name secret +:+ "=" +:+ password.

(** A store for the examples: it knows account A1 and account A2. *)
Definition storeA (n : nat) (t : Target) : string * option error :=
  if String.eqb (AccountID t) "A1" then ("p1", None)
  else if String.eqb (AccountID t) "A2" then ("p2", None)
  else ("", Some (errorString "read secret: not found")).

Definition envGit (name : string) : string :=
  if String.eqb name "GIT_BRANCH" then " origin/qa "
  else if String.eqb name "BRANCH_NAME" then "main"
  else "".

(** * Properties *)

(** ** Lists and lookups *)

Lemma fold_left_seq_S {A} (step : A -> nat -> A) (n : nat) (a : A) :
  fold_left step (seq 0 (S n)) a = step (fold_left step (seq 0 n) a) n.
Proof. rewrite seq_S, fold_left_app. reflexivity. Qed.

Lemma flat_map_seq_S {A} (g : nat -> list A) (n : nat) :
  flat_map g (seq 0 (S n)) = flat_map g (seq 0 n) ++ g n.
Proof. rewrite seq_S, flat_map_app. simpl. rewrite app_nil_r. reflexivity. Qed.

Lemma existsb_take_S {A} (p : A -> bool) (l : list A) (n : nat) (x : A) :
  l !! n = Some x ->
  existsb p (take (S n) l) = existsb p (take n l) || p x.
Proof.
  intros Hx. rewrite (take_S_r _ _ _ Hx), existsb_app. simpl.
  rewrite orb_false_r. reflexivity.
Qed.

Lemma atSecret_lookup f i s P :
  VaultSecrets f !! i = Some s -> atSecret f i P = P s.
Proof. unfold atSecret. intros ->. reflexivity. Qed.

Lemma atOverride_lookup f i j s o P :
  VaultSecrets f !! i = Some s -> BranchOverrides s !! j = Some o ->
  atOverride f i j P = P s o.
Proof. unfold atOverride, atSecret. intros -> ->. reflexivity. Qed.

Lemma nth_secret f i s :
  VaultSecrets f !! i = Some s -> nth i (VaultSecrets f) zeroSecret = s.
Proof. intros H. rewrite nth_lookup, H. reflexivity. Qed.

Lemma nth_override s j o :
  BranchOverrides s !! j = Some o -> nth j (BranchOverrides s) zeroOverride = o.
Proof. intros H. rewrite nth_lookup, H. reflexivity. Qed.

(** ** Targets *)

Lemma isEmpty_true s : isEmpty s = true <-> s = "".
Proof. unfold isEmpty. apply String.eqb_eq. Qed.

Lemma targetsEqual_defined a b :
  targetsEqual a b = true -> targetDefined a = targetDefined b.
Proof.
  unfold targetsEqual, targetDefined, blank. intros H.
  apply andb_true_iff in H as [H1 H2].
  apply String.eqb_eq in H1, H2. rewrite H1, H2. reflexivity.
Qed.

Lemma equal_default_defined o d :
  targetDefined d && targetsEqual o d = true -> targetDefined o = true.
Proof.
  intros H. apply andb_true_iff in H as [Hd He].
  rewrite (targetsEqual_defined _ _ He). exact Hd.
Qed.

Lemma targetValid_defined t : targetValid t = true -> targetDefined t = true.
Proof.
  unfold targetValid, targetDefined.
  destruct (blank (AccountID t)), (blank (Namespace t)); simpl; congruence.
Qed.

(** [validateTarget] on a defined target: nil when the target is valid, the
    field-level issue otherwise. *)
Lemma validateTarget_defined t context issues :
  targetDefined t = true ->
  appendErr issues (validateTarget t context)
  = issues ++ (if negb (targetValid t)
               then [context +:+ ": " +:+ fieldIssue t] else []).
Proof.
  unfold targetDefined, targetValid, validateTarget, fieldIssue.
  destruct (blank (AccountID t)), (blank (Namespace t)); simpl;
    intros H; try discriminate H; try reflexivity.
  rewrite app_nil_r. reflexivity.
Qed.

Lemma validateTarget_nil_iff t context :
  validateTarget t context = None <-> targetValid t = true.
Proof.
  unfold targetValid, validateTarget.
  destruct (blank (AccountID t)), (blank (Namespace t)); simpl;
    split; congruence.
Qed.

(** ** The loops of [Validate] against the checks of the specification *)

Section ValidateChecks.

Variable quote : string -> string.
Variable f : File.

Local Arguments String.append : simpl never.

Lemma overrideIter_checks i j s o issues names :
  VaultSecrets f !! i = Some s ->
  BranchOverrides s !! j = Some o ->
  namesInv s j names ->
  exists names',
    overrideIter quote s (targetDefined (Vault (Default s))) (issues, names) j
    = (issues ++ map (issueOf quote f)
                     (List.filter (violates f) (overrideChecks i j)),
       names')
    /\ namesInv s (S j) names'.
Proof.
  intros Hs Ho Hinv.
  unfold overrideIter, overrideChecks. cbn [List.filter violates].
  rewrite !(atOverride_lookup _ _ _ _ _ _ Hs Ho).
  rewrite (nth_override _ _ _ Ho).
  destruct (blank (OName o)) eqn:Hb.
  - exists names. split.
    + destruct (effectiveEnabled o) eqn:He,
               (targetDefined (OVault o)) eqn:Hd; cbn [negb andb orb];
        rewrite ?validateTarget_defined by assumption;
        destruct (targetValid (OVault o));
        destruct (targetDefined (Vault (Default s))
                  && targetsEqual (OVault o) (Vault (Default s))) eqn:Heq;
        try (apply equal_default_defined in Heq; congruence);
        cbn [negb map issueOf];
        rewrite ?(nth_secret _ _ _ Hs), ?(nth_override _ _ _ Ho);
        repeat rewrite <- app_assoc; rewrite ?app_nil_r; reflexivity.
    + intros n Hn. rewrite (existsb_take_S _ _ _ _ Ho), <- (Hinv n Hn).
      destruct (String.eqb_spec (OName o) n) as [E|]; [congruence|].
      rewrite orb_false_r. reflexivity.
  - exists ({[OName o]} ∪ names). split.
    + rewrite (Hinv _ Hb). cbn [negb andb].
      destruct (existsb _ (take j (BranchOverrides s)));
        destruct (effectiveEnabled o) eqn:He,
                 (targetDefined (OVault o)) eqn:Hd; cbn [negb andb orb];
        rewrite ?validateTarget_defined by assumption;
        destruct (targetValid (OVault o));
        destruct (targetDefined (Vault (Default s))
                  && targetsEqual (OVault o) (Vault (Default s))) eqn:Heq;
        try (apply equal_default_defined in Heq; congruence);
        cbn [negb map issueOf];
        rewrite ?(nth_secret _ _ _ Hs), ?(nth_override _ _ _ Ho);
        repeat rewrite <- app_assoc; rewrite ?app_nil_r; reflexivity.
    + intros n Hn. rewrite (existsb_take_S _ _ _ _ Ho), <- (Hinv n Hn).
      destruct (String.eqb_spec (OName o) n) as [E|Hne].
      * rewrite orb_true_r. apply bool_decide_eq_true.
        apply elem_of_union. left. apply elem_of_singleton. congruence.
      * rewrite orb_false_r. apply bool_decide_ext.
        rewrite elem_of_union, elem_of_singleton. intuition congruence.
Qed.

Lemma overrides_fold i s issues n :
  VaultSecrets f !! i = Some s ->
  n <= length (BranchOverrides s) ->
  exists names,
    fold_left (overrideIter quote s (targetDefined (Vault (Default s))))
              (seq 0 n) (issues, ∅)
    = (issues ++ map (issueOf quote f)
                     (List.filter (violates f)
                                  (flat_map (overrideChecks i) (seq 0 n))),
       names)
    /\ namesInv s n names.
Proof.
  intros Hs. induction n as [|n IH]; intros Hn.
  - exists ∅. split.
    + simpl. rewrite app_nil_r. reflexivity.
    + intros n _. reflexivity.
  - destruct IH as (names & Hfold & Hinv); [lia|].
    destruct (lookup_lt_is_Some_2 (BranchOverrides s) n) as [o Ho]; [lia|].
    destruct (overrideIter_checks i n s o
                (issues ++ map (issueOf quote f)
                   (List.filter (violates f)
                      (flat_map (overrideChecks i) (seq 0 n))))
                names Hs Ho Hinv) as (names' & Hstep & Hinv').
    exists names'. split; [|exact Hinv'].
    rewrite fold_left_seq_S, Hfold, Hstep, flat_map_seq_S.
    rewrite List.filter_app, map_app, app_assoc. reflexivity.
Qed.

Lemma overrides_issues i s issues :
  VaultSecrets f !! i = Some s ->
  fst (fold_left (overrideIter quote s (targetDefined (Vault (Default s))))
                 (seq 0 (length (BranchOverrides s))) (issues, ∅))
  = issues ++ map (issueOf quote f)
                  (List.filter (violates f)
                     (flat_map (overrideChecks i)
                               (seq 0 (length (BranchOverrides s))))).
Proof.
  intros Hs.
  destruct (overrides_fold i s issues (length (BranchOverrides s)) Hs)
    as (names & Hfold & _); [lia|].
  rewrite Hfold. reflexivity.
Qed.

Lemma let_pair_fst {A B C} (x : A * B) (c : C) :
  (let '(a, _) := x in (a, c)) = (fst x, c).
Proof. destruct x. reflexivity. Qed.

Lemma secretIter_checks i s issues seen :
  VaultSecrets f !! i = Some s ->
  seenInv f i seen ->
  exists seen',
    secretIter quote f (issues, seen) i
    = (issues ++ map (issueOf quote f)
                     (List.filter (violates f) (secretChecks f i)),
       seen')
    /\ seenInv f (S i) seen'.
Proof.
  intros Hs Hinv.
  unfold secretIter, secretChecks.
  rewrite (nth_secret _ _ _ Hs), List.filter_app, map_app.
  cbn [List.filter violates].
  rewrite !(atSecret_lookup _ _ _ _ Hs).
  destruct (blank (Name s)) eqn:Hb.
  - exists seen. split.
    + rewrite let_pair_fst, (overrides_issues i s _ Hs).
      destruct (targetDefined (Vault (Default s))) eqn:Hd; cbn [negb andb];
        rewrite ?validateTarget_defined by assumption;
        destruct (targetValid (Vault (Default s)));
        destruct (length (BranchOverrides s) =? 0);
        cbn [negb map issueOf app];
        rewrite ?(nth_secret _ _ _ Hs);
        repeat rewrite <- app_assoc; rewrite ?app_nil_r; reflexivity.
    + intros n Hn. rewrite (existsb_take_S _ _ _ _ Hs), <- (Hinv n Hn).
      destruct (String.eqb_spec (Name s) n) as [E|]; [congruence|].
      rewrite orb_false_r. reflexivity.
  - exists (<[Name s := S (default 0 (seen !! Name s))]> seen). split.
    + rewrite let_pair_fst, (overrides_issues i s _ Hs).
      rewrite lookup_insert_eq. cbn [negb andb].
      change (1 <? default 0 (Some (S (default 0 (seen !! Name s)))))
        with (0 <? default 0 (seen !! Name s)).
      rewrite (Hinv _ Hb).
      destruct (existsb _ (take i (VaultSecrets f)));
        destruct (targetDefined (Vault (Default s))) eqn:Hd; cbn [negb andb];
        rewrite ?validateTarget_defined by assumption;
        destruct (targetValid (Vault (Default s)));
        destruct (length (BranchOverrides s) =? 0);
        cbn [negb map issueOf app];
        rewrite ?(nth_secret _ _ _ Hs);
        repeat rewrite <- app_assoc; rewrite ?app_nil_r; reflexivity.
    + intros n Hn. rewrite (existsb_take_S _ _ _ _ Hs), <- (Hinv n Hn).
      destruct (String.eqb_spec (Name s) n) as [E|Hne].
      * rewrite E, lookup_insert_eq, orb_true_r. reflexivity.
      * rewrite lookup_insert_ne by exact Hne.
        rewrite orb_false_r. reflexivity.
Qed.

Lemma secrets_fold n :
  n <= length (VaultSecrets f) ->
  exists seen,
    fold_left (secretIter quote f) (seq 0 n) ([], ∅)
    = (map (issueOf quote f)
           (List.filter (violates f) (flat_map (secretChecks f) (seq 0 n))),
       seen)
    /\ seenInv f n seen.
Proof.
  induction n as [|n IH]; intros Hn.
  - exists ∅. split; [reflexivity|]. intros n _. reflexivity.
  - destruct IH as (seen & Hfold & Hinv); [lia|].
    destruct (lookup_lt_is_Some_2 (VaultSecrets f) n) as [s Hs]; [lia|].
    destruct (secretIter_checks n s
                (map (issueOf quote f)
                   (List.filter (violates f)
                      (flat_map (secretChecks f) (seq 0 n))))
                seen Hs Hinv) as (seen' & Hstep & Hinv').
    exists seen'. split; [|exact Hinv'].
    rewrite fold_left_seq_S, Hfold, Hstep, flat_map_seq_S.
    rewrite List.filter_app, map_app. reflexivity.
Qed.

(** [Validate] returns the issues of the violations of the document, all of
    them and in document order, and nil when there is none. *)
Lemma Validate_violations :
  Validate quote f = resultOf (map (issueOf quote f) (violationsOf f)).
Proof.
  unfold Validate, violationsOf, documentChecks.
  cbn [List.filter violates].
  destruct (length (VaultSecrets f) =? 0) eqn:Hlen.
  - apply Nat.eqb_eq in Hlen. rewrite Hlen. reflexivity.
  - destruct (secrets_fold (length (VaultSecrets f))) as (seen & Hfold & _);
      [lia|].
    rewrite Hfold.
    destruct (map _ _); reflexivity.
Qed.

End ValidateChecks.

(** ** The violations of a document are the checks it breaks, each once *)

Lemma NoDup_flat_map_seq {A} (g : nat -> list A) (key : A -> option nat) :
  (forall i, List.NoDup (g i)) ->
  (forall i x, In x (g i) -> key x = Some i) ->
  forall n a, List.NoDup (flat_map g (seq a n)).
Proof.
  intros Hnd Hkey. induction n as [|n IH]; intros a; simpl.
  - constructor.
  - apply List.NoDup_app; [apply Hnd|apply IH|].
    intros x Hx Hx'.
    apply in_flat_map in Hx' as (b & Hb & Hxb).
    apply in_seq in Hb.
    pose proof (Hkey _ _ Hx) as K1. pose proof (Hkey _ _ Hxb) as K2.
    rewrite K1 in K2. injection K2 as K2. lia.
Qed.

Lemma overrideChecks_index i j v :
  In v (overrideChecks i j) -> secretIndex v = Some i /\ overrideIndex v = Some j.
Proof.
  unfold overrideChecks. simpl.
  intros [<-|[<-|[<-|[<-|[<-|[<-|[]]]]]]]; split; reflexivity.
Qed.

Lemma NoDup_overrideChecks i j : List.NoDup (overrideChecks i j).
Proof.
  unfold overrideChecks.
  repeat (constructor; [simpl; intuition discriminate|]). constructor.
Qed.

Lemma secretChecks_index f i v : In v (secretChecks f i) -> secretIndex v = Some i.
Proof.
  unfold secretChecks. intros H. apply in_app_or in H as [H|H].
  - simpl in H. destruct H as [<-|[<-|[<-|[<-|[]]]]]; reflexivity.
  - apply in_flat_map in H as (j & _ & H).
    apply overrideChecks_index in H. tauto.
Qed.

Lemma NoDup_secretChecks f i : List.NoDup (secretChecks f i).
Proof.
  unfold secretChecks. apply List.NoDup_app.
  - repeat (constructor; [simpl; intuition discriminate|]). constructor.
  - apply (NoDup_flat_map_seq _ overrideIndex).
    + apply NoDup_overrideChecks.
    + intros j v Hv. apply overrideChecks_index in Hv. tauto.
  - intros v Hv Hv'.
    apply in_flat_map in Hv' as (j & _ & Hv').
    apply overrideChecks_index in Hv' as [_ Hj].
    simpl in Hv. destruct Hv as [<-|[<-|[<-|[<-|[]]]]]; discriminate Hj.
Qed.

Lemma NoDup_documentChecks f : List.NoDup (documentChecks f).
Proof.
  unfold documentChecks. constructor.
  - intros H. apply in_flat_map in H as (i & _ & H).
    apply secretChecks_index in H. discriminate H.
  - apply (NoDup_flat_map_seq _ secretIndex).
    + apply NoDup_secretChecks.
    + apply secretChecks_index.
Qed.

(** A check can only be broken at a place of the document. *)
Lemma violates_documentChecks f v :
  violates f v = true -> In v (documentChecks f).
Proof.
  assert (Hsec : forall i P w,
             atSecret f i P = true -> In w (secretChecks f i) ->
             In w (documentChecks f)).
  { intros i P w H Hw. unfold atSecret in H.
    destruct (VaultSecrets f !! i) as [s|] eqn:Hs; [|discriminate].
    right. apply in_flat_map. exists i. split; [|exact Hw].
    apply in_seq. apply lookup_lt_Some in Hs. lia. }
  assert (Hov : forall i j P w,
             atOverride f i j P = true -> In w (overrideChecks i j) ->
             In w (documentChecks f)).
  { intros i j P w H Hw. eapply Hsec; [exact H|].
    unfold atOverride, atSecret in H.
    destruct (VaultSecrets f !! i) as [s|] eqn:Hs; [|discriminate].
    destruct (BranchOverrides s !! j) as [o|] eqn:Ho; [|discriminate].
    unfold secretChecks. apply in_or_app. right.
    apply in_flat_map. exists j. split; [|exact Hw].
    rewrite (nth_secret _ _ _ Hs).
    apply in_seq. apply lookup_lt_Some in Ho. lia. }
  destruct v; cbn [violates]; intros H;
    try (left; reflexivity);
    try (eapply Hsec; [exact H|]; unfold secretChecks; simpl; tauto);
    (eapply Hov; [exact H|]; unfold overrideChecks; simpl; tauto).
Qed.

Lemma violationsOf_spec f v : In v (violationsOf f) <-> violates f v = true.
Proof.
  unfold violationsOf. rewrite filter_In. split; [tauto|].
  intros H. split; [apply violates_documentChecks|]; exact H.
Qed.

Lemma NoDup_violationsOf f : List.NoDup (violationsOf f).
Proof. apply List.NoDup_filter, NoDup_documentChecks. Qed.

(** A broken check is reported: validation fails and the issue of the
    violation is in the list. *)
Lemma violation_reported quote f v :
  violates f v = true ->
  exists issues,
    Validate quote f = Some (ValidationErrorPtr (mkValidationError issues))
    /\ issues = map (issueOf quote f) (violationsOf f)
    /\ In (issueOf quote f v) issues.
Proof.
  intros Hv. apply violationsOf_spec in Hv.
  exists (map (issueOf quote f) (violationsOf f)).
  split; [|split; [reflexivity|apply in_map, Hv]].
  rewrite Validate_violations.
  destruct (violationsOf f); [destruct Hv|reflexivity].
Qed.

Lemma Validate_nil_iff quote f : Validate quote f = None <-> violationsOf f = [].
Proof.
  rewrite Validate_violations.
  destruct (violationsOf f); simpl; split; congruence.
Qed.

(** C1: [Validate] returns nil or one [ValidationError] whose issues are, in
    document order, the issues of all the checks the document breaks, one
    for each: the list of violations has no repetition, holds exactly the
    broken checks, and the issue list is its image.  A document without
    secrets breaks the single document-level check. *)
Theorem Validate_reports_every_violation (quote : string -> string) (f : File) :
  List.NoDup (violationsOf f)
  /\ (forall v, In v (violationsOf f) <-> violates f v = true)
  /\ Validate quote f = resultOf (map (issueOf quote f) (violationsOf f))
  /\ (violationsOf f = [] -> Validate quote f = None)
  /\ (forall v, violates f v = true ->
        exists issues,
          Validate quote f = Some (ValidationErrorPtr (mkValidationError issues))
          /\ length issues = length (violationsOf f)
          /\ issues <> []
          /\ In (issueOf quote f v) issues)
  /\ (VaultSecrets f = [] ->
        violationsOf f = [NoSecrets]
        /\ Validate quote f
           = Some (ValidationErrorPtr
                     (mkValidationError ["no vault_secrets entries defined"]))).
Proof.
  split; [apply NoDup_violationsOf|].
  split; [apply violationsOf_spec|].
  split; [apply Validate_violations|].
  split; [apply Validate_nil_iff|].
  split.
  - intros v Hv.
    destruct (violation_reported quote f v Hv) as (issues & HV & Hi & Hin).
    exists issues. split; [exact HV|]. split; [|split; [|exact Hin]].
    + rewrite Hi. apply length_map.
    + intros E. rewrite E in Hin. destruct Hin.
  - intros Hnil.
    assert (Hvs : violationsOf f = [NoSecrets]).
    { unfold violationsOf, documentChecks. cbn [List.filter violates].
      rewrite Hnil. reflexivity. }
    split; [exact Hvs|]. rewrite Validate_violations, Hvs. reflexivity.
Qed.

(** ** The branch resolver *)

Lemma HasPrefix_app p x : strings.HasPrefix (p +:+ x) p = true.
Proof.
  unfold strings.HasPrefix. induction p as [|a p IH]; simpl.
  - destruct x; reflexivity.
  - destruct (ascii_dec a a) as [_|N]; [exact IH|congruence].
Qed.

Lemma HasPrefix_inv s p :
  strings.HasPrefix s p = true -> s = p +:+ strings.drop (String.length p) s.
Proof.
  unfold strings.HasPrefix. revert s.
  induction p as [|a p IH]; intros s H; simpl.
  - reflexivity.
  - destruct s as [|b s]; simpl in H; [discriminate|].
    destruct (ascii_dec a b) as [->|]; [|discriminate].
    change (String b s
            = String b (p +:+ strings.drop (String.length p) s)).
    f_equal. apply IH, H.
Qed.

Lemma drop_app p x : strings.drop (String.length p) (p +:+ x) = x.
Proof. induction p as [|a p IH]; [reflexivity|exact IH]. Qed.

Lemma TrimPrefix_app p x : strings.TrimPrefix (p +:+ x) p = x.
Proof. unfold strings.TrimPrefix. rewrite HasPrefix_app. apply drop_app. Qed.

Lemma scanOverrides_none c overrides :
  (forall o, In o overrides -> OName o <> c) -> scanOverrides c overrides = None.
Proof.
  induction overrides as [|o rest IH]; intros H; simpl; [reflexivity|].
  destruct (String.eqb_spec (OName o) c) as [E|_]; simpl.
  - exfalso. apply (H o); [left; reflexivity|exact E].
  - apply IH. intros o' Ho'. apply H. right. exact Ho'.
Qed.

Lemma scanOverrides_first c pre o post :
  (forall o', In o' pre -> OName o' <> c) -> OName o = c ->
  scanOverrides c (pre ++ o :: post) = Some (overrideResult o).
Proof.
  intros Hpre Ho. induction pre as [|o' pre IH]; simpl.
  - rewrite Ho, String.eqb_refl. reflexivity.
  - destruct (String.eqb_spec (OName o') c) as [E|_]; simpl.
    + exfalso. apply (Hpre o'); [left; reflexivity|exact E].
    + apply IH. intros o2 Ho2. apply Hpre. right. exact Ho2.
Qed.

Lemma scanOverrides_some c overrides r :
  scanOverrides c overrides = Some r ->
  exists pre o post,
    overrides = pre ++ o :: post /\ OName o = c
    /\ (forall o', In o' pre -> OName o' <> c) /\ r = overrideResult o.
Proof.
  induction overrides as [|o rest IH]; simpl; [discriminate|].
  destruct (String.eqb_spec (OName o) c) as [E|N]; simpl.
  - intros [= <-]. exists [], o, rest. repeat split; [exact E|intros ? []].
  - intros H. destruct (IH H) as (pre & o1 & post & -> & Hn & Hpre & ->).
    exists (o :: pre), o1, post. repeat split; [exact Hn|].
    intros o' [<-|Ho']; [exact N|apply Hpre, Ho'].
Qed.

Lemma scanCandidates_none cs overrides :
  (forall c o, In c cs -> In o overrides -> OName o <> c) ->
  scanCandidates cs overrides = None.
Proof.
  induction cs as [|c cs IH]; intros H; simpl; [reflexivity|].
  rewrite scanOverrides_none.
  - apply IH. intros c' o Hc Ho. apply H; [right; exact Hc|exact Ho].
  - intros o Ho. apply H; [left; reflexivity|exact Ho].
Qed.

Lemma scanCandidates_first cpre c cpost opre o opost :
  (forall c' o', In c' cpre -> In o' (opre ++ o :: opost) -> OName o' <> c') ->
  (forall o', In o' opre -> OName o' <> c) -> OName o = c ->
  scanCandidates (cpre ++ c :: cpost) (opre ++ o :: opost)
  = Some (overrideResult o).
Proof.
  intros Hc Hpre Ho. induction cpre as [|c' cpre IH]; simpl.
  - rewrite (scanOverrides_first c opre o opost Hpre Ho). reflexivity.
  - rewrite scanOverrides_none.
    + apply IH. intros c2 o2 Hc2 Ho2. apply Hc; [right; exact Hc2|exact Ho2].
    + intros o2 Ho2. apply Hc; [left; reflexivity|exact Ho2].
Qed.

Lemma scanCandidates_some cs overrides r :
  scanCandidates cs overrides = Some r ->
  exists o, In o overrides /\ In (OName o) cs /\ r = overrideResult o.
Proof.
  induction cs as [|c cs IH]; simpl; [discriminate|].
  destruct (scanOverrides c overrides) as [r'|] eqn:Hs.
  - intros [= <-].
    destruct (scanOverrides_some _ _ _ Hs) as (pre & o & post & -> & Hn & _ & ->).
    exists o. split; [apply in_elt|]. split; [left; symmetry; exact Hn|reflexivity].
  - intros H. destruct (IH H) as (o & Ho & Hc & ->).
    exists o. split; [exact Ho|]. split; [right; exact Hc|reflexivity].
Qed.

Lemma overrideResult_false o t : overrideResult o = (t, false) -> t = zeroTarget.
Proof.
  unfold overrideResult.
  destruct (negb (effectiveEnabled o)); [congruence|].
  destruct (isEmpty (AccountID (OVault o)) && isEmpty (Namespace (OVault o)));
    congruence.
Qed.

Lemma branchCandidates_blank branch :
  strings.TrimSpace branch = "" -> branchCandidates branch = [].
Proof. unfold branchCandidates. intros ->. reflexivity. Qed.

Lemma branchCandidates_shape branch :
  strings.TrimSpace branch <> "" ->
  branchCandidates branch
  = [strings.TrimSpace branch]
    ++ (if strings.HasPrefix (strings.TrimSpace branch) "refs/heads/"
        then [strings.TrimPrefix (strings.TrimSpace branch) "refs/heads/"]
        else [])
    ++ (if strings.HasPrefix (strings.TrimSpace branch) "origin/"
        then [strings.TrimPrefix (strings.TrimSpace branch) "origin/"]
        else []).
Proof.
  intros Hne. unfold branchCandidates.
  destruct (isEmpty (strings.TrimSpace branch)) eqn:He.
  - apply isEmpty_true in He. contradiction.
  - destruct (strings.HasPrefix _ "refs/heads/"),
             (strings.HasPrefix _ "origin/"); reflexivity.
Qed.

Lemma branchCandidates_refs_heads branch x :
  strings.TrimSpace branch = "refs/heads/" +:+ x ->
  branchCandidates branch = ["refs/heads/" +:+ x; x].
Proof.
  intros Hb. unfold branchCandidates. rewrite Hb.
  rewrite HasPrefix_app, TrimPrefix_app. reflexivity.
Qed.

Lemma branchCandidates_origin branch x :
  strings.TrimSpace branch = "origin/" +:+ x ->
  branchCandidates branch = ["origin/" +:+ x; x].
Proof.
  intros Hb. unfold branchCandidates. rewrite Hb.
  rewrite HasPrefix_app, TrimPrefix_app. reflexivity.
Qed.

(** Without a matching override the default target decides, by the same
    test on the raw fields. *)
Lemma TargetForBranch_default_raw secret branch :
  (forall c o, In c (branchCandidates branch) -> In o (BranchOverrides secret) ->
               OName o <> c) ->
  TargetForBranch secret branch
  = if isEmpty (AccountID (Vault (Default secret)))
       && isEmpty (Namespace (Vault (Default secret)))
    then (zeroTarget, false) else (Vault (Default secret), true).
Proof.
  intros H. unfold TargetForBranch.
  rewrite (scanCandidates_none _ _ H). reflexivity.
Qed.

Lemma TargetForBranch_blank_branch secret branch :
  strings.TrimSpace branch = "" ->
  TargetForBranch secret branch
  = if isEmpty (AccountID (Vault (Default secret)))
       && isEmpty (Namespace (Vault (Default secret)))
    then (zeroTarget, false) else (Vault (Default secret), true).
Proof.
  intros H. apply TargetForBranch_default_raw.
  rewrite (branchCandidates_blank _ H). intros c o [].
Qed.

(** Scenarios B and C of the specification. *)
Example scenario_B : TargetForBranch secretB "dev" = (zeroTarget, false).
Proof. reflexivity. Qed.

Example scenario_C :
  TargetForBranch secretC "origin/qa" = (mkTarget "A2" "N2" "", true).
Proof. reflexivity. Qed.

Lemma isEmpty_blank s : isEmpty s = true -> blank s = true.
Proof. intros H. apply isEmpty_true in H. rewrite H. reflexivity. Qed.


(** What [TargetForBranch] returns at a matched override of any secret:
    the test is on the raw fields. *)
Lemma overrideResult_raw o :
  overrideResult o
  = if negb (effectiveEnabled o)
       || (isEmpty (AccountID (OVault o)) && isEmpty (Namespace (OVault o)))
    then (zeroTarget, false) else (OVault o, true).
Proof. unfold overrideResult. destruct (effectiveEnabled o); reflexivity. Qed.

(** Outside the accepted documents: an enabled override whose target is one
    space in account_id is not defined for [targetDefined], [Validate]
    rejects the document that holds it, and [TargetForBranch], which tests
    the raw fields, would return it with [true]. *)
Example TargetForBranch_override_space_target :
  effectiveEnabled overrideSpace = true
  /\ targetDefined (OVault overrideSpace) = false
  /\ TargetForBranch secretSpaceOverride "dev" = (tSpace, true)
  /\ Validate quotePlain (mkFile [secretSpaceOverride])
     = Some (ValidationErrorPtr (mkValidationError
         ["secret " +:+ quotePlain "x" +:+ " override " +:+ quotePlain "dev"
          +:+ " must define a vault target when vault is enabled"])).
Proof. repeat split; vm_compute; reflexivity. Qed.



(** C3: the candidates are the trimmed branch, then the branch without
    refs/heads/, then the branch without origin/; the result is decided by
    the first override, in declared order, named as the first candidate, in
    list order, that names any override; branch refs/heads/release reaches
    the override named release when none is named refs/heads/release. *)
Theorem TargetForBranch_first_match (secret : Secret) (branch : string) :
  (strings.TrimSpace branch = "" -> branchCandidates branch = [])
  /\ (strings.TrimSpace branch <> "" ->
      branchCandidates branch
      = [strings.TrimSpace branch]
        ++ (if strings.HasPrefix (strings.TrimSpace branch) "refs/heads/"
            then [strings.TrimPrefix (strings.TrimSpace branch) "refs/heads/"]
            else [])
        ++ (if strings.HasPrefix (strings.TrimSpace branch) "origin/"
            then [strings.TrimPrefix (strings.TrimSpace branch) "origin/"]
            else []))
  /\ (forall x, strings.TrimSpace branch = "refs/heads/" +:+ x ->
        branchCandidates branch = [strings.TrimSpace branch; x])
  /\ (forall x, strings.TrimSpace branch = "origin/" +:+ x ->
        branchCandidates branch = [strings.TrimSpace branch; x])
  /\ (forall cpre c cpost opre o opost,
        branchCandidates branch = cpre ++ c :: cpost ->
        BranchOverrides secret = opre ++ o :: opost ->
        OName o = c ->
        (forall o', In o' opre -> OName o' <> c) ->
        (forall c' o', In c' cpre -> In o' (BranchOverrides secret) ->
                       OName o' <> c') ->
        TargetForBranch secret branch = overrideResult o)
  /\ (forall opre o opost,
        branch = "refs/heads/release" ->
        BranchOverrides secret = opre ++ o :: opost ->
        OName o = "release" ->
        (forall o', In o' opre -> OName o' <> "release") ->
        (forall o', In o' (BranchOverrides secret) ->
                    OName o' <> "refs/heads/release") ->
        TargetForBranch secret branch = overrideResult o).
Proof.
  split; [apply branchCandidates_blank|].
  split; [apply branchCandidates_shape|].
  split; [intros x Hx; rewrite Hx; apply branchCandidates_refs_heads, Hx|].
  split; [intros x Hx; rewrite Hx; apply branchCandidates_origin, Hx|].
  assert (Hfirst : forall cpre c cpost opre o opost,
             branchCandidates branch = cpre ++ c :: cpost ->
             BranchOverrides secret = opre ++ o :: opost ->
             OName o = c ->
             (forall o', In o' opre -> OName o' <> c) ->
             (forall c' o', In c' cpre -> In o' (BranchOverrides secret) ->
                            OName o' <> c') ->
             TargetForBranch secret branch = overrideResult o).
  { intros cpre c cpost opre o opost Hc Ho Hn Hpre Hcs.
    unfold TargetForBranch. rewrite Hc, Ho.
    rewrite (scanCandidates_first cpre c cpost opre o opost);
      [reflexivity| |exact Hpre|exact Hn].
    rewrite <- Ho. exact Hcs. }
  split; [exact Hfirst|].
  intros opre o opost -> Ho Hn Hpre Hnone.
  apply (Hfirst ["refs/heads/release"] "release" [] opre o opost);
    [reflexivity|exact Ho|exact Hn|exact Hpre|].
  intros c' o' [<-|[]] Ho'. apply Hnone, Ho'.
Qed.

Lemma TargetForBranch_first_match_witness :
  branchCandidates "  " = []
  /\ branchCandidates " main " = ["main"]
  /\ branchCandidates "refs/heads/release" = ["refs/heads/release"; "release"]
  /\ branchCandidates "origin/qa" = ["origin/qa"; "qa"]
  /\ TargetForBranch secretC "origin/qa" = (mkTarget "A2" "N2" "", true)
  /\ TargetForBranch secretRelease "refs/heads/release"
     = (mkTarget "A3" "N3" "", true).
Proof.
  split.
  { destruct (TargetForBranch_first_match secretA "  ") as (H & _).
    apply H. reflexivity. }
  split.
  { destruct (TargetForBranch_first_match secretA " main ") as (_ & H & _).
    apply H. discriminate. }
  split.
  { destruct (TargetForBranch_first_match secretA "refs/heads/release")
      as (_ & _ & H & _).
    apply (H "release"). reflexivity. }
  split.
  { destruct (TargetForBranch_first_match secretA "origin/qa")
      as (_ & _ & _ & H & _).
    apply (H "qa"). reflexivity. }
  split.
  { destruct (TargetForBranch_first_match secretC "origin/qa")
      as (_ & _ & _ & _ & H & _).
    rewrite (H ["origin/qa"] "qa" [] []
               (mkBranchOverride "qa" (mkTarget "A2" "N2" "") None) []).
    - reflexivity.
    - reflexivity.
    - reflexivity.
    - reflexivity.
    - intros o' [].
    - intros c' o' [<-|[]] [<-|[]]. simpl. discriminate. }
  destruct (TargetForBranch_first_match secretRelease "refs/heads/release")
    as (_ & _ & _ & _ & _ & H).
  rewrite (H [mkBranchOverride "qa" (mkTarget "A2" "N2" "") None]
             overrideRelease []).
  - reflexivity.
  - reflexivity.
  - reflexivity.
  - reflexivity.
  - intros o' [<-|[]]. simpl. discriminate.
  - intros o' [<-|[<-|[]]]; simpl; discriminate.
Defined.

(** C4: scenario A resolves to the default target; a default target whose
    account_id is one space is not defined for [targetDefined], the secret
    is accepted by [Validate] thanks to its override, and [TargetForBranch]
    returns that target with [true] on the default path, where
    [MustDefaultBranchTarget] refuses it. *)
Theorem TargetForBranch_default_space_target :
  TargetForBranch secretA "" = (tA1N1, true)
  /\ targetDefined (Vault (Default secretSpaceDefault)) = false
  /\ Validate quotePlain docSpaceDefault = None
  /\ branchCandidates "" = []
  /\ TargetForBranch secretSpaceDefault "" = (tSpace, true)
  /\ TargetForBranch secretSpaceDefault "main" = (tSpace, true)
  /\ MustDefaultBranchTarget secretSpaceDefault
     = (zeroTarget, Some (errorString "default vault target is not defined")).
Proof. repeat split; vm_compute; reflexivity. Qed.

(** C9: when [TargetForBranch] returns false, the target it returns is the
    zero [Target]: the three fields are empty. *)
Theorem TargetForBranch_false_zero (secret : Secret) (branch : string) (t : Target) :
  TargetForBranch secret branch = (t, false) ->
  t = zeroTarget
  /\ AccountID t = "" /\ Namespace t = "" /\ NamespaceAlias t = "".
Proof.
  intros H. assert (Ht : t = zeroTarget).
  { revert H. unfold TargetForBranch.
    destruct (scanCandidates _ _) as [r|] eqn:Hs.
    - destruct (scanCandidates_some _ _ _ Hs) as (o & _ & _ & Hr).
      rewrite Hr. apply overrideResult_false.
    - destruct (isEmpty _ && isEmpty _); congruence. }
  rewrite Ht. repeat split; reflexivity.
Qed.

Lemma TargetForBranch_false_zero_witness :
  TargetForBranch secretD "origin/dev" = (zeroTarget, false)
  /\ (zeroTarget = zeroTarget
      /\ AccountID zeroTarget = "" /\ Namespace zeroTarget = ""
      /\ NamespaceAlias zeroTarget = "").
Proof.
  split; [reflexivity|].
  apply (TargetForBranch_false_zero secretD "origin/dev" zeroTarget).
  reflexivity.
Defined.

(** ** Validation: the contradictory and the redundant override *)

Lemma In_lookup {A} (x : A) (l : list A) : In x l -> exists i, l !! i = Some x.
Proof. intros H. apply list_elem_of_In in H. apply list_elem_of_lookup_1, H. Qed.

(** A document that breaks nine checks, a document that breaks none and
    the document without secrets. *)
Lemma Validate_reports_every_violation_witness :
  (violates docBroken (OverrideNotValid 0 2) = true
   /\ exists issues,
        Validate quotePlain docBroken
        = Some (ValidationErrorPtr (mkValidationError issues))
        /\ length issues = length (violationsOf docBroken)
        /\ issues <> []
        /\ In (issueOf quotePlain docBroken (OverrideNotValid 0 2)) issues)
  /\ (violationsOf (File_Normalize docLegacy) = []
      /\ Validate quotePlain (File_Normalize docLegacy) = None)
  /\ (VaultSecrets (mkFile []) = []
      /\ violationsOf (mkFile []) = [NoSecrets]
      /\ Validate quotePlain (mkFile [])
         = Some (ValidationErrorPtr
                   (mkValidationError ["no vault_secrets entries defined"]))).
Proof.
  split; [|split].
  - split; [reflexivity|].
    destruct (Validate_reports_every_violation quotePlain docBroken)
      as (_ & _ & _ & _ & H & _).
    apply H. reflexivity.
  - split; [reflexivity|].
    destruct (Validate_reports_every_violation quotePlain
                (File_Normalize docLegacy)) as (_ & _ & _ & H & _).
    apply H. reflexivity.
  - split; [reflexivity|].
    destruct (Validate_reports_every_violation quotePlain (mkFile []))
      as (_ & _ & _ & _ & _ & H).
    apply H. reflexivity.
Defined.

(** C5: a document that holds an override with [vault_enabled] explicitly
    false and a defined target is rejected, and one of the issues names the
    secret and the override. *)
Theorem Validate_disabled_override_with_target
  (quote : string -> string) (f : File) (s : Secret) (o : BranchOverride) :
  In s (VaultSecrets f) ->
  In o (BranchOverrides s) ->
  VaultEnabled o = Some false ->
  targetDefined (OVault o) = true ->
  exists issues,
    Validate quote f = Some (ValidationErrorPtr (mkValidationError issues))
    /\ In ("secret " +:+ quote (Name s) +:+ " override " +:+ quote (OName o)
           +:+ " disables vault but defines a vault target") issues.
Proof.
  intros Hs Ho Hen Hdef.
  apply In_lookup in Hs as [i Hs]. apply In_lookup in Ho as [j Ho].
  assert (Hv : violates f (DisabledWithTarget i j) = true).
  { cbn [violates]. rewrite (atOverride_lookup _ _ _ _ _ _ Hs Ho).
    unfold effectiveEnabled. rewrite Hen, Hdef. reflexivity. }
  destruct (violation_reported quote f _ Hv) as (issues & HV & _ & Hin).
  exists issues. split; [exact HV|].
  cbn [issueOf] in Hin.
  rewrite (nth_secret _ _ _ Hs), (nth_override _ _ _ Ho) in Hin. exact Hin.
Qed.

Lemma Validate_disabled_override_with_target_witness :
  exists issues,
    Validate quotePlain docD = Some (ValidationErrorPtr (mkValidationError issues))
    /\ In ("secret " +:+ quotePlain "x" +:+ " override " +:+ quotePlain "dev"
           +:+ " disables vault but defines a vault target") issues.
Proof.
  apply (Validate_disabled_override_with_target quotePlain docD secretD overrideD).
  - simpl. left. reflexivity.
  - simpl. left. reflexivity.
  - reflexivity.
  - reflexivity.
Defined.

(** C6: a document that holds a secret with a defined default target and an
    enabled override whose target equals the default (after trimming) is
    rejected, with an issue for that override. *)
Theorem Validate_override_equal_to_default
  (quote : string -> string) (f : File) (s : Secret) (o : BranchOverride) :
  In s (VaultSecrets f) ->
  In o (BranchOverrides s) ->
  targetDefined (Vault (Default s)) = true ->
  effectiveEnabled o = true ->
  targetsEqual (OVault o) (Vault (Default s)) = true ->
  exists issues,
    Validate quote f = Some (ValidationErrorPtr (mkValidationError issues))
    /\ In ("secret " +:+ quote (Name s) +:+ " override " +:+ quote (OName o)
           +:+ " must not match the default vault target") issues.
Proof.
  intros Hs Ho Hdef Hen Heq.
  apply In_lookup in Hs as [i Hs]. apply In_lookup in Ho as [j Ho].
  assert (Hv : violates f (OverrideEqualsDefault i j) = true).
  { cbn [violates]. rewrite (atOverride_lookup _ _ _ _ _ _ Hs Ho).
    rewrite Hen, Hdef, Heq. reflexivity. }
  destruct (violation_reported quote f _ Hv) as (issues & HV & _ & Hin).
  exists issues. split; [exact HV|].
  cbn [issueOf] in Hin.
  rewrite (nth_secret _ _ _ Hs), (nth_override _ _ _ Ho) in Hin. exact Hin.
Qed.

Lemma Validate_override_equal_to_default_witness :
  exists issues,
    Validate quotePlain docSame
    = Some (ValidationErrorPtr (mkValidationError issues))
    /\ In ("secret " +:+ quotePlain "x" +:+ " override " +:+ quotePlain "dev"
           +:+ " must not match the default vault target") issues.
Proof.
  apply (Validate_override_equal_to_default quotePlain docSame secretSame overrideSame).
  - simpl. left. reflexivity.
  - simpl. left. reflexivity.
  - reflexivity.
  - reflexivity.
  - reflexivity.
Defined.

(** ** The error value *)

(** [errors_Is] follows [Unwrap], as the loop of [errors.Is] does. *)
Lemma errors_Is_unwrap same err target :
  errors_Is same err target
  = same err target
    || match err with
       | ValidationErrorPtr v => ValidationError_Is v target
       | _ => false
       end
    || match Unwrap err with
       | Some inner => errors_Is same inner target
       | None => false
       end.
Proof.
  destruct err; simpl; rewrite ?orb_false_r; reflexivity.
Qed.

(** C7: a non-nil result of [Validate] is one pointer to a
    [ValidationError] that holds the ordered issues; [errors.Is] against a
    [ValidationError] target is true for it whatever the issues of either,
    also once wrapped with [%w], and is decided by [ValidationError.Is],
    which looks at the type of the target only. *)
Theorem Validate_error_is_ValidationError
  (quote : string -> string) (same : error -> error -> bool)
  (f : File) (e : error) :
  Validate quote f = Some e ->
  exists issues,
    e = ValidationErrorPtr (mkValidationError issues)
    /\ issues = map (issueOf quote f) (violationsOf f)
    /\ issues <> []
    /\ (forall issues',
          ValidationError_Is (mkValidationError issues)
            (ValidationErrorPtr (mkValidationError issues')) = true
          /\ errors_Is same e (ValidationErrorPtr (mkValidationError issues'))
             = true)
    /\ (forall msg issues',
          errors_Is same (wrapError msg e)
            (ValidationErrorPtr (mkValidationError issues')) = true)
    /\ (forall msg, ValidationError_Is (mkValidationError issues)
                      (errorString msg) = false).
Proof.
  rewrite Validate_violations. intros H.
  exists (map (issueOf quote f) (violationsOf f)).
  destruct (map (issueOf quote f) (violationsOf f)) as [|x l] eqn:E;
    [discriminate H|].
  injection H as <-.
  split; [reflexivity|]. split; [reflexivity|]. split; [discriminate|].
  split; [|split].
  - intros issues'. split; [reflexivity|]. simpl. apply orb_true_r.
  - intros msg issues'. simpl. rewrite !orb_true_r. reflexivity.
  - reflexivity.
Qed.

Lemma Validate_error_is_ValidationError_witness :
  exists issues,
    issues <> []
    /\ Validate quotePlain docD
       = Some (ValidationErrorPtr (mkValidationError issues))
    /\ errors_Is (fun _ _ => false)
         (wrapError "failed to load config"
            (ValidationErrorPtr (mkValidationError issues)))
         (ValidationErrorPtr (mkValidationError [])) = true.
Proof.
  destruct (Validate_error_is_ValidationError quotePlain (fun _ _ => false) docD
              (ValidationErrorPtr (mkValidationError
                 (map (issueOf quotePlain docD) (violationsOf docD)))))
    as (issues & He & _ & Hne & _ & Hw & _).
  - vm_compute. reflexivity.
  - exists issues. split; [exact Hne|]. split.
    + rewrite <- He. vm_compute. reflexivity.
    + rewrite <- He. apply Hw.
Defined.

(** ** Normalisation and a second pass *)

Lemma Target_Normalize_idem t :
  Target_Normalize (Target_Normalize t) = Target_Normalize t.
Proof.
  unfold Target_Normalize.
  destruct (isEmpty (Namespace t)) eqn:E; simpl.
  - destruct (isEmpty (NamespaceAlias t)); reflexivity.
  - rewrite E. reflexivity.
Qed.

Lemma BranchOverride_Normalize_idem o :
  BranchOverride_Normalize (BranchOverride_Normalize o)
  = BranchOverride_Normalize o.
Proof.
  unfold BranchOverride_Normalize. simpl.
  rewrite Target_Normalize_idem. reflexivity.
Qed.

Lemma Secret_Normalize_idem s :
  Secret_Normalize (Secret_Normalize s) = Secret_Normalize s.
Proof.
  unfold Secret_Normalize. simpl.
  rewrite Target_Normalize_idem, map_map. f_equal.
  apply map_ext. intros o. apply BranchOverride_Normalize_idem.
Qed.

Lemma File_Normalize_idem f : File_Normalize (File_Normalize f) = File_Normalize f.
Proof.
  unfold File_Normalize. simpl. rewrite map_map. f_equal.
  apply map_ext. intros s. apply Secret_Normalize_idem.
Qed.

(** C8: the document that [Load] hands out (normalised, accepted) is
    accepted again: by [Validate] alone, and by a second pass of
    normalisation and validation, which leaves it as it is. *)
Theorem Validate_idempotent_on_accepted
  (quote : string -> string) (cfg D : File) :
  LoadParsed quote cfg = (Some D, None) ->
  Validate quote D = None
  /\ File_Normalize D = D
  /\ LoadParsed quote D = (Some D, None).
Proof.
  unfold LoadParsed.
  destruct (Validate quote (File_Normalize cfg)) eqn:HV; [discriminate|].
  intros [= HD].
  assert (HN : File_Normalize D = D).
  { rewrite <- HD. apply File_Normalize_idem. }
  rewrite HN, <- HD, HV. repeat split; reflexivity.
Qed.

Lemma Validate_idempotent_on_accepted_witness :
  LoadParsed quotePlain docLegacy = (Some (File_Normalize docLegacy), None)
  /\ Validate quotePlain (File_Normalize docLegacy) = None
  /\ File_Normalize (File_Normalize docLegacy) = File_Normalize docLegacy
  /\ LoadParsed quotePlain (File_Normalize docLegacy)
     = (Some (File_Normalize docLegacy), None).
Proof.
  split; [vm_compute; reflexivity|].
  apply (Validate_idempotent_on_accepted quotePlain docLegacy).
  vm_compute. reflexivity.
Defined.

(** C10: [Normalize] on a target writes the namespace only, and only when it
    is the empty string, with the value of the alias field; a namespace of
    white space is kept; account_id and the alias field are what they were;
    a second call changes nothing.  [File.Normalize] does this to every
    target of the document and nothing else. *)
Theorem Target_Normalize_frame (t : Target) (f : File) :
  AccountID (Target_Normalize t) = AccountID t
  /\ NamespaceAlias (Target_Normalize t) = NamespaceAlias t
  /\ (Namespace t = "" -> Namespace (Target_Normalize t) = NamespaceAlias t)
  /\ (Namespace t <> "" -> Target_Normalize t = t)
  /\ Target_Normalize (mkTarget (AccountID t) " " (NamespaceAlias t))
     = mkTarget (AccountID t) " " (NamespaceAlias t)
  /\ Target_Normalize (Target_Normalize t) = Target_Normalize t
  /\ File_Normalize (File_Normalize f) = File_Normalize f
  /\ map Name (VaultSecrets (File_Normalize f)) = map Name (VaultSecrets f)
  /\ (forall i s, VaultSecrets f !! i = Some s ->
        VaultSecrets (File_Normalize f) !! i
        = Some (mkSecret (Name s)
                  (mkTargetWrapper (Target_Normalize (Vault (Default s))))
                  (map (fun o => mkBranchOverride (OName o)
                                   (Target_Normalize (OVault o))
                                   (VaultEnabled o))
                       (BranchOverrides s)))).
Proof.
  split; [|split; [|split; [|split; [|split; [|split; [|split; [|split]]]]]]].
  - unfold Target_Normalize. destruct (isEmpty (Namespace t)); reflexivity.
  - unfold Target_Normalize. destruct (isEmpty (Namespace t)); reflexivity.
  - intros H. unfold Target_Normalize. rewrite H. reflexivity.
  - intros H. unfold Target_Normalize.
    destruct (isEmpty (Namespace t)) eqn:E; [|reflexivity].
    apply isEmpty_true in E. contradiction.
  - reflexivity.
  - apply Target_Normalize_idem.
  - apply File_Normalize_idem.
  - unfold File_Normalize. simpl. rewrite map_map. reflexivity.
  - intros i s Hs. unfold File_Normalize. simpl.
    rewrite list_lookup_fmap, Hs. reflexivity.
Qed.

Lemma Target_Normalize_frame_witness :
  Namespace (mkTarget "A1" "" "N1") = ""
  /\ Namespace (Target_Normalize (mkTarget "A1" "" "N1")) = "N1"
  /\ mkTarget "A1" "N0" "N1" = mkTarget "A1" "N0" "N1"
  /\ Target_Normalize (mkTarget "A1" "N0" "N1") = mkTarget "A1" "N0" "N1"
  /\ VaultSecrets (File_Normalize docLegacy) !! 0%nat
     = Some (mkSecret "x" (mkTargetWrapper (mkTarget "A1" "N1" "N1"))
               [mkBranchOverride "qa" (mkTarget "A2" "N2" "N2") None]).
Proof.
  split; [reflexivity|].
  split.
  { destruct (Target_Normalize_frame (mkTarget "A1" "" "N1") docLegacy)
      as (_ & _ & H & _).
    apply H. reflexivity. }
  split; [reflexivity|].
  split.
  { destruct (Target_Normalize_frame (mkTarget "A1" "N0" "N1") docLegacy)
      as (_ & _ & _ & H & _).
    apply H. discriminate. }
  destruct (Target_Normalize_frame zeroTarget docLegacy)
    as (_ & _ & _ & _ & _ & _ & _ & _ & H).
  exact (H 0%nat
           (mkSecret "x" (mkTargetWrapper (mkTarget "A1" "" "N1"))
              [mkBranchOverride "qa" (mkTarget "A2" "" "N2") None])
           eq_refl).
Defined.

(** * Further properties of the code *)

(** ** [strings.TrimSpace] *)

Lemma trimLeft_fixed s : startsSpace s = false -> strings.trimLeft s = s.
Proof.
  destruct s as [|c1 [|c2 [|c3 r3]]]; simpl; intros H; try reflexivity.
  - destruct (strings.asciiSpace c1); [discriminate|reflexivity].
  - destruct (strings.asciiSpace c1); [discriminate|].
    destruct (strings.space2 c1 c2); [discriminate|reflexivity].
  - destruct (strings.asciiSpace c1); [discriminate|].
    destruct (strings.space2 c1 c2); [discriminate|].
    destruct (strings.space3 c1 c2 c3); [discriminate|reflexivity].
Qed.

Lemma trimLeft_no_space_n n : forall s,
  String.length s <= n -> startsSpace (strings.trimLeft s) = false.
Proof.
  induction n as [|n IH]; intros s Hn.
  - destruct s; [reflexivity|simpl in Hn; lia].
  - assert (Hrec : forall r, String.length r <= n ->
               strings.trimLeft s = strings.trimLeft r ->
               startsSpace (strings.trimLeft s) = false).
    { intros r Hr Ht. rewrite Ht. apply IH, Hr. }
    assert (Hstop : startsSpace s = false ->
               startsSpace (strings.trimLeft s) = false).
    { intros H. rewrite (trimLeft_fixed s H). exact H. }
    destruct s as [|c1 [|c2 [|c3 r3]]]; simpl in Hn.
    + reflexivity.
    + destruct (strings.asciiSpace c1) eqn:E1.
      * apply (Hrec ""); [simpl; lia|]. simpl. rewrite E1. reflexivity.
      * apply Hstop. simpl. rewrite E1. reflexivity.
    + destruct (strings.asciiSpace c1) eqn:E1.
      * apply (Hrec (String c2 "")); [simpl; lia|].
        simpl. rewrite E1. reflexivity.
      * destruct (strings.space2 c1 c2) eqn:E2.
        -- apply (Hrec ""); [simpl; lia|]. simpl. rewrite E1, E2. reflexivity.
        -- apply Hstop. simpl. rewrite E1, E2. reflexivity.
    + destruct (strings.asciiSpace c1) eqn:E1.
      * apply (Hrec (String c2 (String c3 r3))); [simpl; lia|].
        simpl. rewrite E1. reflexivity.
      * destruct (strings.space2 c1 c2) eqn:E2.
        -- apply (Hrec (String c3 r3)); [simpl; lia|].
           simpl. rewrite E1, E2. reflexivity.
        -- destruct (strings.space3 c1 c2 c3) eqn:E3.
           ++ apply (Hrec r3); [lia|]. simpl. rewrite E1, E2, E3. reflexivity.
           ++ apply Hstop. simpl. rewrite E1, E2, E3. reflexivity.
Qed.

Lemma trimLeft_no_space s : startsSpace (strings.trimLeft s) = false.
Proof. apply (trimLeft_no_space_n (String.length s)). lia. Qed.

Lemma trimLeftRev_fixed s : startsSpaceRev s = false -> strings.trimLeftRev s = s.
Proof.
  destruct s as [|c1 [|c2 [|c3 r3]]]; simpl; intros H; try reflexivity.
  - destruct (strings.asciiSpace c1); [discriminate|reflexivity].
  - destruct (strings.asciiSpace c1); [discriminate|].
    destruct (strings.space2 c2 c1); [discriminate|reflexivity].
  - destruct (strings.asciiSpace c1); [discriminate|].
    destruct (strings.space2 c2 c1); [discriminate|].
    destruct (strings.space3 c3 c2 c1); [discriminate|reflexivity].
Qed.

(** [trimLeftRev] returns a suffix that starts with no white space. *)
Lemma trimLeftRev_suffix_n n : forall s,
  String.length s <= n ->
  startsSpaceRev (strings.trimLeftRev s) = false
  /\ exists p, s = p +:+ strings.trimLeftRev s.
Proof.
  induction n as [|n IH]; intros s Hn.
  - destruct s; [|simpl in Hn; lia]. split; [reflexivity|]. exists "". reflexivity.
  - assert (Hrec : forall p r, String.length r <= n -> s = p +:+ r ->
               strings.trimLeftRev s = strings.trimLeftRev r ->
               startsSpaceRev (strings.trimLeftRev s) = false
               /\ exists p', s = p' +:+ strings.trimLeftRev s).
    { intros p r Hr Hs Ht. rewrite Ht.
      destruct (IH r Hr) as [H1 [q Hq]]. split; [exact H1|].
      exists (p +:+ q). rewrite Hs at 1. rewrite Hq at 1.
      clear. induction p as [|a p IHp]; [reflexivity|].
      change (String a (p +:+ q +:+ strings.trimLeftRev r)
              = String a ((p +:+ q) +:+ strings.trimLeftRev r)).
      f_equal. exact IHp. }
    assert (Hstop : startsSpaceRev s = false ->
               startsSpaceRev (strings.trimLeftRev s) = false
               /\ exists p', s = p' +:+ strings.trimLeftRev s).
    { intros H. rewrite (trimLeftRev_fixed s H). split; [exact H|].
      exists "". reflexivity. }
    destruct s as [|c1 [|c2 [|c3 r3]]]; simpl in Hn.
    + apply Hstop. reflexivity.
    + destruct (strings.asciiSpace c1) eqn:E1.
      * apply (Hrec (String c1 "") ""); [simpl; lia|reflexivity|].
        simpl. rewrite E1. reflexivity.
      * apply Hstop. simpl. rewrite E1. reflexivity.
    + destruct (strings.asciiSpace c1) eqn:E1.
      * apply (Hrec (String c1 "") (String c2 "")); [simpl; lia|reflexivity|].
        simpl. rewrite E1. reflexivity.
      * destruct (strings.space2 c2 c1) eqn:E2.
        -- apply (Hrec (String c1 (String c2 "")) ""); [simpl; lia|reflexivity|].
           simpl. rewrite E1, E2. reflexivity.
        -- apply Hstop. simpl. rewrite E1, E2. reflexivity.
    + destruct (strings.asciiSpace c1) eqn:E1.
      * apply (Hrec (String c1 "") (String c2 (String c3 r3)));
          [simpl; lia|reflexivity|].
        simpl. rewrite E1. reflexivity.
      * destruct (strings.space2 c2 c1) eqn:E2.
        -- apply (Hrec (String c1 (String c2 "")) (String c3 r3));
             [simpl; lia|reflexivity|].
           simpl. rewrite E1, E2. reflexivity.
        -- destruct (strings.space3 c3 c2 c1) eqn:E3.
           ++ apply (Hrec (String c1 (String c2 (String c3 ""))) r3);
                [lia|reflexivity|].
              simpl. rewrite E1, E2, E3. reflexivity.
           ++ apply Hstop. simpl. rewrite E1, E2, E3. reflexivity.
Qed.

Lemma append_assoc (a b c : string) : (a +:+ b) +:+ c = a +:+ b +:+ c.
Proof.
  induction a as [|x a IH]; [reflexivity|].
  change (String x ((a +:+ b) +:+ c) = String x (a +:+ b +:+ c)).
  f_equal. exact IH.
Qed.

Lemma append_nil_r (a : string) : a +:+ "" = a.
Proof.
  induction a as [|x a IH]; [reflexivity|].
  change (String x (a +:+ "") = String x a). f_equal. exact IH.
Qed.

Lemma rev_append_app s acc : strings.rev_append s acc = strings.rev s +:+ acc.
Proof.
  unfold strings.rev. revert acc.
  induction s as [|c s IH]; intros acc; simpl; [reflexivity|].
  rewrite (IH (String c acc)), (IH (String c "")), append_assoc. reflexivity.
Qed.

Lemma rev_app a b : strings.rev (a +:+ b) = strings.rev b +:+ strings.rev a.
Proof.
  induction a as [|x a IH].
  - change ("" +:+ b) with b. rewrite append_nil_r. reflexivity.
  - change (String x a +:+ b) with (String x (a +:+ b)).
    unfold strings.rev at 1 3. simpl.
    rewrite !rev_append_app, IH, append_assoc. reflexivity.
Qed.

Lemma rev_involutive s : strings.rev (strings.rev s) = s.
Proof.
  induction s as [|x s IH]; [reflexivity|].
  unfold strings.rev at 2. simpl. rewrite rev_append_app, rev_app, IH.
  reflexivity.
Qed.

(** A string that starts with white space still does once extended. *)
Lemma startsSpace_app p q : startsSpace p = true -> startsSpace (p +:+ q) = true.
Proof.
  destruct p as [|c1 [|c2 [|c3 r3]]]; simpl; intros H.
  - discriminate.
  - rewrite orb_false_r in H.
    change (String c1 "" +:+ q) with (String c1 q). simpl. rewrite H. reflexivity.
  - change (String c1 (String c2 "") +:+ q) with (String c1 (String c2 q)).
    simpl. rewrite orb_false_r in H.
    destruct (strings.asciiSpace c1); [reflexivity|]. simpl in *.
    rewrite H. reflexivity.
  - exact H.
Qed.

Lemma TrimSpace_no_space s :
  startsSpace (strings.TrimSpace s) = false
  /\ startsSpaceRev (strings.rev (strings.TrimSpace s)) = false.
Proof.
  unfold strings.TrimSpace, strings.trimRight.
  destruct (trimLeftRev_suffix_n _ (strings.rev (strings.trimLeft s)) (le_n _))
    as [Hr [p Hp]].
  split; [|rewrite rev_involutive; exact Hr].
  destruct (startsSpace (strings.rev (strings.trimLeftRev
                           (strings.rev (strings.trimLeft s))))) eqn:E;
    [|reflexivity].
  apply (startsSpace_app _ (strings.rev p)) in E.
  rewrite <- rev_app, <- Hp, rev_involutive, trimLeft_no_space in E.
  discriminate E.
Qed.

(** Trimming twice is trimming once. *)
Lemma TrimSpace_idempotent s :
  strings.TrimSpace (strings.TrimSpace s) = strings.TrimSpace s.
Proof.
  destruct (TrimSpace_no_space s) as [H1 H2].
  unfold strings.TrimSpace at 1. rewrite (trimLeft_fixed _ H1).
  unfold strings.trimRight. rewrite (trimLeftRev_fixed _ H2).
  apply rev_involutive.
Qed.

Lemma blank_TrimSpace s : blank (strings.TrimSpace s) = blank s.
Proof. unfold blank. rewrite TrimSpace_idempotent. reflexivity. Qed.

(** ** Acceptance *)

Lemma Validate_nil_no_violation quote f :
  Validate quote f = None <-> forall v, violates f v = false.
Proof.
  rewrite Validate_nil_iff. split.
  - intros H v. destruct (violates f v) eqn:Hv; [|reflexivity].
    apply violationsOf_spec in Hv. rewrite H in Hv. destruct Hv.
  - intros H. destruct (violationsOf f) as [|v l] eqn:E; [reflexivity|].
    assert (Hv : In v (violationsOf f)) by (rewrite E; left; reflexivity).
    apply violationsOf_spec in Hv. rewrite H in Hv. discriminate Hv.
Qed.

(** No element repeats the key of an earlier one: the keys are distinct. *)
Lemma NoDup_keys_take {A} (key : A -> string) (l : list A) :
  (forall i x, l !! i = Some x ->
     existsb (fun y => String.eqb (key y) (key x)) (take i l) = false)
  <-> List.NoDup (map key l).
Proof.
  induction l as [|a l IH]; simpl.
  - split; [constructor|]. intros _ i x Hx. destruct i; discriminate Hx.
  - split.
    + intros H. constructor.
      * intros Hin. apply in_map_iff in Hin as (x & Hk & Hx).
        apply In_lookup in Hx as [i Hi].
        specialize (H (S i) x Hi). simpl in H.
        rewrite <- Hk, String.eqb_refl in H. discriminate H.
      * apply IH. intros i x Hi. specialize (H (S i) x Hi). simpl in H.
        apply orb_false_iff in H. tauto.
    + intros H. apply List.NoDup_cons_iff in H as [Hnin Hnd].
      intros [|i] x Hx; simpl; [reflexivity|].
      simpl in Hx. apply orb_false_iff. split.
      * destruct (String.eqb_spec (key a) (key x)) as [E|]; [|reflexivity].
        exfalso. apply Hnin. rewrite E. apply in_map.
        apply list_elem_of_In. eapply list_elem_of_lookup_2, Hx.
      * apply IH; assumption.
Qed.

Lemma violates_none_secret f i s :
  (forall v, violates f v = false) ->
  VaultSecrets f !! i = Some s ->
  blank (Name s) = false
  /\ existsb (fun s' => String.eqb (Name s') (Name s)) (take i (VaultSecrets f))
     = false
  /\ (targetDefined (Vault (Default s)) = true ->
      targetValid (Vault (Default s)) = true)
  /\ (targetDefined (Vault (Default s)) = false -> BranchOverrides s <> []).
Proof.
  intros H Hs.
  pose proof (H (SecretNameMissing i)) as H1.
  pose proof (H (SecretNameDuplicate i)) as H2.
  pose proof (H (DefaultNotValid i)) as H3.
  pose proof (H (SecretWithoutTarget i)) as H4.
  cbn [violates] in H1, H2, H3, H4.
  rewrite (atSecret_lookup _ _ _ _ Hs) in H1.
  rewrite (atSecret_lookup _ _ _ _ Hs) in H2.
  rewrite (atSecret_lookup _ _ _ _ Hs) in H3.
  rewrite (atSecret_lookup _ _ _ _ Hs) in H4.
  rewrite H1 in H2. simpl in H2.
  split; [exact H1|]. split; [exact H2|]. split.
  - intros Hd. rewrite Hd in H3. simpl in H3. apply negb_false_iff, H3.
  - intros Hd Hnil. rewrite Hd, Hnil in H4. discriminate H4.
Qed.

Lemma violates_none_override f i j s o :
  (forall v, violates f v = false) ->
  VaultSecrets f !! i = Some s ->
  BranchOverrides s !! j = Some o ->
  existsb (fun o' => String.eqb (OName o') (OName o)) (take j (BranchOverrides s))
  = false
  /\ overrideOK s o.
Proof.
  intros H Hs Ho.
  pose proof (H (OverrideNameMissing i j)) as H1.
  pose proof (H (OverrideNameDuplicate i j)) as H2.
  pose proof (H (DisabledWithTarget i j)) as H3.
  pose proof (H (EnabledWithoutTarget i j)) as H4.
  pose proof (H (OverrideNotValid i j)) as H5.
  pose proof (H (OverrideEqualsDefault i j)) as H6.
  cbn [violates] in H1, H2, H3, H4, H5, H6.
  rewrite (atOverride_lookup _ _ _ _ _ _ Hs Ho) in H1.
  rewrite (atOverride_lookup _ _ _ _ _ _ Hs Ho) in H2.
  rewrite (atOverride_lookup _ _ _ _ _ _ Hs Ho) in H3.
  rewrite (atOverride_lookup _ _ _ _ _ _ Hs Ho) in H4.
  rewrite (atOverride_lookup _ _ _ _ _ _ Hs Ho) in H5.
  rewrite (atOverride_lookup _ _ _ _ _ _ Hs Ho) in H6.
  rewrite H1 in H2. simpl in H2.
  split; [exact H2|]. unfold overrideOK.
  split; [exact H1|]. split.
  - intros He. rewrite He in H3. exact H3.
  - intros He. rewrite He in H4, H5, H6. simpl in H4, H5, H6.
    apply negb_false_iff in H4. rewrite H4 in H5. simpl in H5.
    apply negb_false_iff in H5. split; [exact H5|].
    intros Hd. rewrite Hd in H6. exact H6.
Qed.

Lemma Validate_nil_acceptable (quote : string -> string) (f : File) :
  Validate quote f = None <-> acceptable f.
Proof.
  rewrite Validate_nil_no_violation. split.
  - intros H. unfold acceptable. split; [|split].
    + intros Hnil. specialize (H NoSecrets). cbn [violates] in H.
      rewrite Hnil in H. discriminate H.
    + apply NoDup_keys_take. intros i s Hs.
      apply (violates_none_secret f i s H Hs).
    + apply Forall_lookup. intros i s Hs.
      destruct (violates_none_secret f i s H Hs) as (H1 & _ & H3 & H4).
      unfold secretOK. split; [exact H1|]. split; [exact H3|].
      split; [exact H4|]. split.
      * apply NoDup_keys_take. intros j o Ho.
        apply (violates_none_override f i j s o H Hs Ho).
      * apply Forall_lookup. intros j o Ho.
        apply (violates_none_override f i j s o H Hs Ho).
  - intros (Hne & Hnd & Hall) v.
    assert (Hsec : forall i s, VaultSecrets f !! i = Some s -> secretOK s).
    { intros i s Hs. exact (proj1 (Forall_lookup _ _) Hall i s Hs). }
    assert (Hdup : forall i s, VaultSecrets f !! i = Some s ->
              existsb (fun s' => String.eqb (Name s') (Name s))
                      (take i (VaultSecrets f)) = false).
    { apply NoDup_keys_take, Hnd. }
    assert (Hov : forall i j s o, VaultSecrets f !! i = Some s ->
              BranchOverrides s !! j = Some o ->
              overrideOK s o
              /\ existsb (fun o' => String.eqb (OName o') (OName o))
                         (take j (BranchOverrides s)) = false).
    { intros i j s o Hs Ho.
      destruct (Hsec i s Hs) as (_ & _ & _ & Hnd' & Hall').
      split; [exact (proj1 (Forall_lookup _ _) Hall' j o Ho)|].
      exact (proj2 (NoDup_keys_take OName _) Hnd' j o Ho). }
    destruct v; cbn [violates]; unfold atOverride, atSecret.
    + destruct (VaultSecrets f); [contradiction|reflexivity].
    + destruct (VaultSecrets f !! i) as [s|] eqn:Hs; [|reflexivity].
      apply (Hsec i s Hs).
    + destruct (VaultSecrets f !! i) as [s|] eqn:Hs; [|reflexivity].
      rewrite (Hdup i s Hs). apply andb_false_r.
    + destruct (VaultSecrets f !! i) as [s|] eqn:Hs; [|reflexivity].
      destruct (Hsec i s Hs) as (_ & H3 & _).
      destruct (targetDefined (Vault (Default s))); [|reflexivity].
      rewrite H3; reflexivity.
    + destruct (VaultSecrets f !! i) as [s|] eqn:Hs; [|reflexivity].
      destruct (Hsec i s Hs) as (_ & _ & H4 & _).
      destruct (targetDefined (Vault (Default s))); [reflexivity|].
      destruct (BranchOverrides s); [exfalso; apply H4; reflexivity|reflexivity].
    + destruct (VaultSecrets f !! i) as [s|] eqn:Hs; [|reflexivity].
      destruct (BranchOverrides s !! j) as [o|] eqn:Ho; [|reflexivity].
      apply (Hov i j s o Hs Ho).
    + destruct (VaultSecrets f !! i) as [s|] eqn:Hs; [|reflexivity].
      destruct (BranchOverrides s !! j) as [o|] eqn:Ho; [|reflexivity].
      rewrite (proj2 (Hov i j s o Hs Ho)). apply andb_false_r.
    + destruct (VaultSecrets f !! i) as [s|] eqn:Hs; [|reflexivity].
      destruct (BranchOverrides s !! j) as [o|] eqn:Ho; [|reflexivity].
      destruct (Hov i j s o Hs Ho) as [(_ & Hdis & _) _].
      destruct (effectiveEnabled o); [reflexivity|]. apply Hdis. reflexivity.
    + destruct (VaultSecrets f !! i) as [s|] eqn:Hs; [|reflexivity].
      destruct (BranchOverrides s !! j) as [o|] eqn:Ho; [|reflexivity].
      destruct (Hov i j s o Hs Ho) as [(_ & _ & Hen) _].
      destruct (effectiveEnabled o); [|reflexivity].
      destruct (Hen eq_refl) as [Hv _].
      rewrite (targetValid_defined _ Hv). reflexivity.
    + destruct (VaultSecrets f !! i) as [s|] eqn:Hs; [|reflexivity].
      destruct (BranchOverrides s !! j) as [o|] eqn:Ho; [|reflexivity].
      destruct (Hov i j s o Hs Ho) as [(_ & _ & Hen) _].
      destruct (effectiveEnabled o); [|reflexivity].
      destruct (Hen eq_refl) as [Hv _]. rewrite Hv. apply andb_false_r.
    + destruct (VaultSecrets f !! i) as [s|] eqn:Hs; [|reflexivity].
      destruct (BranchOverrides s !! j) as [o|] eqn:Ho; [|reflexivity].
      destruct (Hov i j s o Hs Ho) as [(_ & _ & Hen) _].
      destruct (effectiveEnabled o); [|reflexivity].
      destruct (Hen eq_refl) as [_ Heq].
      destruct (targetDefined (Vault (Default s))); [|reflexivity].
      rewrite (Heq eq_refl). reflexivity.
Qed.

(** X1: [Validate] returns nil exactly on the documents that keep the
    invariants of the data model: at least one secret; secret names
    non-blank and distinct; a defined default target valid; a secret
    without a defined default has an override; override names non-blank and
    distinct within the secret; a disabled override without a defined
    target; an enabled override with a valid target that differs from a
    defined default. *)
Theorem Validate_accepts_iff (quote : string -> string) (f : File) :
  Validate quote f = None <-> acceptable f.
Proof. apply Validate_nil_acceptable. Qed.

Lemma Validate_accepts_iff_witness : acceptable (File_Normalize docLegacy).
Proof.
  apply (Validate_accepts_iff quotePlain (File_Normalize docLegacy)).
  vm_compute. reflexivity.
Defined.

(** ** The checks, one by one *)

Lemma existsb_take_lookup {A} (p : A -> bool) (l : list A) i j x :
  i < j -> l !! i = Some x -> p x = true -> existsb p (take j l) = true.
Proof.
  intros Hij Hx Hp. apply existsb_exists. exists x. split; [|exact Hp].
  apply list_elem_of_In. apply (list_elem_of_lookup_2 _ i).
  rewrite lookup_take_lt by exact Hij. exact Hx.
Qed.

(** X2: a secret that repeats the non-blank name of an earlier secret is
    reported as a duplicate, by its name. *)
Theorem Validate_duplicate_secret_name
  (quote : string -> string) (f : File) (i j : nat) (s s' : Secret) :
  i < j ->
  VaultSecrets f !! i = Some s ->
  VaultSecrets f !! j = Some s' ->
  Name s = Name s' ->
  blank (Name s') = false ->
  exists issues,
    Validate quote f = Some (ValidationErrorPtr (mkValidationError issues))
    /\ In ("duplicate secret name " +:+ quote (Name s')) issues.
Proof.
  intros Hij Hs Hs' Hn Hb.
  assert (Hv : violates f (SecretNameDuplicate j) = true).
  { cbn [violates]. rewrite (atSecret_lookup _ _ _ _ Hs'), Hb. simpl.
    apply (existsb_take_lookup _ _ i j s Hij Hs).
    rewrite Hn. apply String.eqb_refl. }
  destruct (violation_reported quote f _ Hv) as (issues & HV & _ & Hin).
  exists issues. split; [exact HV|].
  cbn [issueOf] in Hin. rewrite (nth_secret _ _ _ Hs') in Hin. exact Hin.
Qed.

Lemma Validate_duplicate_secret_name_witness :
  exists issues,
    Validate quotePlain docBroken
    = Some (ValidationErrorPtr (mkValidationError issues))
    /\ In ("duplicate secret name " +:+ quotePlain "x") issues.
Proof.
  apply (Validate_duplicate_secret_name quotePlain docBroken 0 1
           (mkSecret "x" (mkTargetWrapper tA1N1)
              [overrideD;
               mkBranchOverride "dev" (mkTarget "A1 " "N1" "") None;
               mkBranchOverride " " (mkTarget "A1 " "" "") None])
           (mkSecret "x" (mkTargetWrapper (mkTarget "" "N1" "")) [])).
  - lia.
  - reflexivity.
  - reflexivity.
  - reflexivity.
  - reflexivity.
Defined.

(** X3: an override that repeats the non-blank name of an earlier override
    of the same secret is reported as a duplicate, by secret and branch. *)
Theorem Validate_duplicate_override_name
  (quote : string -> string) (f : File) (s : Secret) (i j : nat)
  (o o' : BranchOverride) :
  In s (VaultSecrets f) ->
  i < j ->
  BranchOverrides s !! i = Some o ->
  BranchOverrides s !! j = Some o' ->
  OName o = OName o' ->
  blank (OName o') = false ->
  exists issues,
    Validate quote f = Some (ValidationErrorPtr (mkValidationError issues))
    /\ In ("secret " +:+ quote (Name s) +:+ " has duplicate override for branch "
           +:+ quote (OName o')) issues.
Proof.
  intros Hs Hij Ho Ho' Hn Hb. apply In_lookup in Hs as [k Hs].
  assert (Hv : violates f (OverrideNameDuplicate k j) = true).
  { cbn [violates]. rewrite (atOverride_lookup _ _ _ _ _ _ Hs Ho'), Hb. simpl.
    apply (existsb_take_lookup _ _ i j o Hij Ho).
    rewrite Hn. apply String.eqb_refl. }
  destruct (violation_reported quote f _ Hv) as (issues & HV & _ & Hin).
  exists issues. split; [exact HV|].
  cbn [issueOf] in Hin.
  rewrite (nth_secret _ _ _ Hs), (nth_override _ _ _ Ho') in Hin. exact Hin.
Qed.

Lemma Validate_duplicate_override_name_witness :
  exists issues,
    Validate quotePlain docBroken
    = Some (ValidationErrorPtr (mkValidationError issues))
    /\ In ("secret " +:+ quotePlain "x" +:+ " has duplicate override for branch "
           +:+ quotePlain "dev") issues.
Proof.
  apply (Validate_duplicate_override_name quotePlain docBroken
           (mkSecret "x" (mkTargetWrapper tA1N1)
              [overrideD;
               mkBranchOverride "dev" (mkTarget "A1 " "N1" "") None;
               mkBranchOverride " " (mkTarget "A1 " "" "") None])
           0 1 overrideD (mkBranchOverride "dev" (mkTarget "A1 " "N1" "") None)).
  - simpl. left. reflexivity.
  - lia.
  - reflexivity.
  - reflexivity.
  - reflexivity.
  - reflexivity.
Defined.

(** X4: a secret whose name is blank is reported by its index. *)
Theorem Validate_secret_missing_name
  (quote : string -> string) (f : File) (i : nat) (s : Secret) :
  VaultSecrets f !! i = Some s ->
  blank (Name s) = true ->
  exists issues,
    Validate quote f = Some (ValidationErrorPtr (mkValidationError issues))
    /\ In ("secret at index " +:+ itoa i +:+ " is missing a name") issues.
Proof.
  intros Hs Hb.
  assert (Hv : violates f (SecretNameMissing i) = true).
  { cbn [violates]. rewrite (atSecret_lookup _ _ _ _ Hs). exact Hb. }
  destruct (violation_reported quote f _ Hv) as (issues & HV & _ & Hin).
  exists issues. split; [exact HV|exact Hin].
Qed.

Lemma Validate_secret_missing_name_witness :
  exists issues,
    Validate quotePlain docBroken
    = Some (ValidationErrorPtr (mkValidationError issues))
    /\ In "secret at index 2 is missing a name" issues.
Proof.
  apply (Validate_secret_missing_name quotePlain docBroken 2
           (mkSecret "" (mkTargetWrapper (mkTarget "" " " "")) [])).
  - reflexivity.
  - reflexivity.
Defined.

(** X5: an override whose name is blank is reported by the name of its
    secret and its index. *)
Theorem Validate_override_missing_name
  (quote : string -> string) (f : File) (s : Secret) (j : nat)
  (o : BranchOverride) :
  In s (VaultSecrets f) ->
  BranchOverrides s !! j = Some o ->
  blank (OName o) = true ->
  exists issues,
    Validate quote f = Some (ValidationErrorPtr (mkValidationError issues))
    /\ In ("secret " +:+ quote (Name s) +:+ " override at index " +:+ itoa j
           +:+ " missing name") issues.
Proof.
  intros Hs Ho Hb. apply In_lookup in Hs as [i Hs].
  assert (Hv : violates f (OverrideNameMissing i j) = true).
  { cbn [violates]. rewrite (atOverride_lookup _ _ _ _ _ _ Hs Ho). exact Hb. }
  destruct (violation_reported quote f _ Hv) as (issues & HV & _ & Hin).
  exists issues. split; [exact HV|].
  cbn [issueOf] in Hin. rewrite (nth_secret _ _ _ Hs) in Hin. exact Hin.
Qed.

Lemma Validate_override_missing_name_witness :
  exists issues,
    Validate quotePlain docBroken
    = Some (ValidationErrorPtr (mkValidationError issues))
    /\ In ("secret " +:+ quotePlain "x" +:+ " override at index 2 missing name")
          issues.
Proof.
  apply (Validate_override_missing_name quotePlain docBroken
           (mkSecret "x" (mkTargetWrapper tA1N1)
              [overrideD;
               mkBranchOverride "dev" (mkTarget "A1 " "N1" "") None;
               mkBranchOverride " " (mkTarget "A1 " "" "") None])
           2 (mkBranchOverride " " (mkTarget "A1 " "" "") None)).
  - simpl. left. reflexivity.
  - reflexivity.
  - reflexivity.
Defined.

(** X6: a default target with one field filled and the other blank is
    reported with the field that is missing. *)
Theorem Validate_default_partly_defined
  (quote : string -> string) (f : File) (s : Secret) :
  In s (VaultSecrets f) ->
  targetDefined (Vault (Default s)) = true ->
  targetValid (Vault (Default s)) = false ->
  exists issues,
    Validate quote f = Some (ValidationErrorPtr (mkValidationError issues))
    /\ In ("secret " +:+ quote (Name s) +:+ " default: "
           +:+ (if blank (AccountID (Vault (Default s)))
                then "account_id is required" else "namespace is required"))
          issues.
Proof.
  intros Hs Hd Hnv. apply In_lookup in Hs as [i Hs].
  assert (Hv : violates f (DefaultNotValid i) = true).
  { cbn [violates]. rewrite (atSecret_lookup _ _ _ _ Hs), Hd, Hnv. reflexivity. }
  destruct (violation_reported quote f _ Hv) as (issues & HV & _ & Hin).
  exists issues. split; [exact HV|].
  cbn [issueOf] in Hin. rewrite (nth_secret _ _ _ Hs) in Hin.
  unfold fieldIssue in Hin. rewrite !append_assoc in Hin. exact Hin.
Qed.

Lemma Validate_default_partly_defined_witness :
  exists issues,
    Validate quotePlain docBroken
    = Some (ValidationErrorPtr (mkValidationError issues))
    /\ In ("secret " +:+ quotePlain "x" +:+ " default: account_id is required")
          issues.
Proof.
  apply (Validate_default_partly_defined quotePlain docBroken
           (mkSecret "x" (mkTargetWrapper (mkTarget "" "N1" "")) [])).
  - simpl. right. left. reflexivity.
  - reflexivity.
  - reflexivity.
Defined.

(** X7: a secret with no defined default target and no override is
    reported by its name. *)
Theorem Validate_secret_without_target
  (quote : string -> string) (f : File) (s : Secret) :
  In s (VaultSecrets f) ->
  targetDefined (Vault (Default s)) = false ->
  BranchOverrides s = [] ->
  exists issues,
    Validate quote f = Some (ValidationErrorPtr (mkValidationError issues))
    /\ In ("secret " +:+ quote (Name s)
           +:+ " must define a default target or at least one branch override")
          issues.
Proof.
  intros Hs Hd Hnil. apply In_lookup in Hs as [i Hs].
  assert (Hv : violates f (SecretWithoutTarget i) = true).
  { cbn [violates]. rewrite (atSecret_lookup _ _ _ _ Hs), Hd, Hnil. reflexivity. }
  destruct (violation_reported quote f _ Hv) as (issues & HV & _ & Hin).
  exists issues. split; [exact HV|].
  cbn [issueOf] in Hin. rewrite (nth_secret _ _ _ Hs) in Hin. exact Hin.
Qed.

Lemma Validate_secret_without_target_witness :
  exists issues,
    Validate quotePlain docBroken
    = Some (ValidationErrorPtr (mkValidationError issues))
    /\ In ("secret " +:+ quotePlain ""
           +:+ " must define a default target or at least one branch override")
          issues.
Proof.
  apply (Validate_secret_without_target quotePlain docBroken
           (mkSecret "" (mkTargetWrapper (mkTarget "" " " "")) [])).
  - simpl. right. right. left. reflexivity.
  - reflexivity.
  - reflexivity.
Defined.

(** X8: an enabled override (vault_enabled absent or true) without a
    defined target is reported by secret and override. *)
Theorem Validate_enabled_override_without_target
  (quote : string -> string) (f : File) (s : Secret) (o : BranchOverride) :
  In s (VaultSecrets f) ->
  In o (BranchOverrides s) ->
  effectiveEnabled o = true ->
  targetDefined (OVault o) = false ->
  exists issues,
    Validate quote f = Some (ValidationErrorPtr (mkValidationError issues))
    /\ In ("secret " +:+ quote (Name s) +:+ " override " +:+ quote (OName o)
           +:+ " must define a vault target when vault is enabled") issues.
Proof.
  intros Hs Ho He Hd.
  apply In_lookup in Hs as [i Hs]. apply In_lookup in Ho as [j Ho].
  assert (Hv : violates f (EnabledWithoutTarget i j) = true).
  { cbn [violates]. rewrite (atOverride_lookup _ _ _ _ _ _ Hs Ho), He, Hd.
    reflexivity. }
  destruct (violation_reported quote f _ Hv) as (issues & HV & _ & Hin).
  exists issues. split; [exact HV|].
  cbn [issueOf] in Hin.
  rewrite (nth_secret _ _ _ Hs), (nth_override _ _ _ Ho) in Hin. exact Hin.
Qed.

Lemma Validate_enabled_override_without_target_witness :
  exists issues,
    Validate quotePlain (mkFile [secretSpaceOverride])
    = Some (ValidationErrorPtr (mkValidationError issues))
    /\ In ("secret " +:+ quotePlain "x" +:+ " override " +:+ quotePlain "dev"
           +:+ " must define a vault target when vault is enabled") issues.
Proof.
  apply (Validate_enabled_override_without_target quotePlain
           (mkFile [secretSpaceOverride]) secretSpaceOverride overrideSpace).
  - simpl. left. reflexivity.
  - simpl. left. reflexivity.
  - reflexivity.
  - reflexivity.
Defined.

(** X9: an enabled override whose target has one field filled and the other
    blank is reported with the field that is missing. *)
Theorem Validate_enabled_override_partly_defined
  (quote : string -> string) (f : File) (s : Secret) (o : BranchOverride) :
  In s (VaultSecrets f) ->
  In o (BranchOverrides s) ->
  effectiveEnabled o = true ->
  targetDefined (OVault o) = true ->
  targetValid (OVault o) = false ->
  exists issues,
    Validate quote f = Some (ValidationErrorPtr (mkValidationError issues))
    /\ In (("secret " +:+ quote (Name s) +:+ " override " +:+ quote (OName o))
           +:+ ": "
           +:+ (if blank (AccountID (OVault o))
                then "account_id is required" else "namespace is required"))
          issues.
Proof.
  intros Hs Ho He Hd Hnv.
  apply In_lookup in Hs as [i Hs]. apply In_lookup in Ho as [j Ho].
  assert (Hv : violates f (OverrideNotValid i j) = true).
  { cbn [violates]. rewrite (atOverride_lookup _ _ _ _ _ _ Hs Ho), He, Hd, Hnv.
    reflexivity. }
  destruct (violation_reported quote f _ Hv) as (issues & HV & _ & Hin).
  exists issues. split; [exact HV|].
  cbn [issueOf] in Hin.
  rewrite (nth_secret _ _ _ Hs), (nth_override _ _ _ Ho) in Hin.
  exact Hin.
Qed.

Lemma Validate_enabled_override_partly_defined_witness :
  exists issues,
    Validate quotePlain docBroken
    = Some (ValidationErrorPtr (mkValidationError issues))
    /\ In (("secret " +:+ quotePlain "x" +:+ " override " +:+ quotePlain " ")
           +:+ ": namespace is required") issues.
Proof.
  apply (Validate_enabled_override_partly_defined quotePlain docBroken
           (mkSecret "x" (mkTargetWrapper tA1N1)
              [overrideD;
               mkBranchOverride "dev" (mkTarget "A1 " "N1" "") None;
               mkBranchOverride " " (mkTarget "A1 " "" "") None])
           (mkBranchOverride " " (mkTarget "A1 " "" "") None)).
  - simpl. left. reflexivity.
  - simpl. right. right. left. reflexivity.
  - reflexivity.
  - reflexivity.
  - reflexivity.
Defined.

(** ** Targets *)

(** X10: [validateTarget] returns nil exactly on a valid target; otherwise
    its message is the context, a colon, and one of three texts: both fields
    missing, account_id required, namespace required.  The two field texts
    are never joined. *)
Theorem validateTarget_cases (t : Target) (context : string) :
  (validateTarget t context = None <-> targetValid t = true)
  /\ (forall e, validateTarget t context = Some e ->
        (blank (AccountID t) = true /\ blank (Namespace t) = true
         /\ Error e = context +:+ ": missing account_id and namespace")
        \/ (blank (AccountID t) = true /\ blank (Namespace t) = false
            /\ Error e = context +:+ ": account_id is required")
        \/ (blank (AccountID t) = false /\ blank (Namespace t) = true
            /\ Error e = context +:+ ": namespace is required")).
Proof.
  split; [apply validateTarget_nil_iff|].
  unfold validateTarget.
  destruct (blank (AccountID t)), (blank (Namespace t)); simpl; intros e He;
    try discriminate He; injection He as <-; simpl; tauto.
Qed.

Lemma validateTarget_cases_witness :
  validateTarget (mkTarget " " "N1" "") "secret default"
  = Some (errorString "secret default: account_id is required")
  /\ validateTarget tA1N1 "secret default" = None.
Proof.
  split; [reflexivity|].
  apply (validateTarget_cases tA1N1 "secret default"). reflexivity.
Defined.

Lemma targetValid_raw t :
  targetValid t = true ->
  isEmpty (AccountID t) && isEmpty (Namespace t) = false.
Proof.
  unfold targetValid. intros H. apply andb_true_iff in H as [Ha _].
  apply negb_true_iff in Ha.
  destruct (isEmpty (AccountID t)) eqn:E; [|reflexivity].
  apply isEmpty_blank in E. congruence.
Qed.

(** X11: [MustDefaultBranchTarget] returns the default target and nil
    exactly when the default target is valid; with an error it returns the
    zero target.  When it succeeds, [TargetForBranch] returns the same
    target, with true, for every branch that matches no override. *)
Theorem MustDefaultBranchTarget_valid (s : Secret) :
  (targetValid (Vault (Default s)) = true ->
   MustDefaultBranchTarget s = (Vault (Default s), None))
  /\ (forall t, MustDefaultBranchTarget s = (t, None) ->
        t = Vault (Default s) /\ targetValid t = true)
  /\ (forall t e, MustDefaultBranchTarget s = (t, Some e) ->
        t = zeroTarget /\ targetValid (Vault (Default s)) = false)
  /\ (forall t branch,
        MustDefaultBranchTarget s = (t, None) ->
        (forall c o, In c (branchCandidates branch) ->
                     In o (BranchOverrides s) -> OName o <> c) ->
        TargetForBranch s branch = (t, true)).
Proof.
  assert (Hok : forall t, MustDefaultBranchTarget s = (t, None) ->
            t = Vault (Default s) /\ targetValid t = true).
  { unfold MustDefaultBranchTarget. intros t.
    destruct (targetDefined (Vault (Default s))); simpl; [|discriminate].
    destruct (validateTarget _ _) eqn:E; [discriminate|].
    intros [= <-]. split; [reflexivity|].
    apply (validateTarget_nil_iff _ "secret default"), E. }
  split; [|split; [exact Hok|split]].
  - intros Hv. unfold MustDefaultBranchTarget.
    rewrite (targetValid_defined _ Hv). simpl.
    rewrite (proj2 (validateTarget_nil_iff _ "secret default") Hv). reflexivity.
  - unfold MustDefaultBranchTarget. intros t e.
    destruct (targetDefined (Vault (Default s))) eqn:Hd; simpl.
    + destruct (validateTarget _ _) eqn:E; [|discriminate].
      intros [= <- _]. split; [reflexivity|].
      destruct (targetValid (Vault (Default s))) eqn:Hv; [|reflexivity].
      apply (validateTarget_nil_iff _ "secret default") in Hv. congruence.
    + intros [= <- _]. split; [reflexivity|].
      destruct (targetValid (Vault (Default s))) eqn:Hv; [|reflexivity].
      apply targetValid_defined in Hv. congruence.
  - intros t branch Ht Hnone. destruct (Hok t Ht) as [-> Hv].
    rewrite (TargetForBranch_default_raw s branch Hnone).
    rewrite (targetValid_raw _ Hv). reflexivity.
Qed.

Lemma MustDefaultBranchTarget_valid_witness :
  MustDefaultBranchTarget secretC = (tA1N1, None)
  /\ TargetForBranch secretC "main" = (tA1N1, true).
Proof.
  destruct (MustDefaultBranchTarget_valid secretC) as (H1 & _ & _ & H4).
  split.
  - apply H1. reflexivity.
  - apply H4; [reflexivity|].
    intros c o [<-|[]] [<-|[]]. simpl. discriminate.
Defined.

(** X12: [targetsEqual] is an equivalence on targets that does not look at
    the alias field, and equal targets are defined together and valid
    together. *)
Theorem targetsEqual_equivalence (a b c : Target) (alias : string) :
  targetsEqual a a = true
  /\ targetsEqual a b = targetsEqual b a
  /\ (targetsEqual a b = true -> targetsEqual b c = true ->
      targetsEqual a c = true)
  /\ targetsEqual a (mkTarget (AccountID b) (Namespace b) alias)
     = targetsEqual a b
  /\ (targetsEqual a b = true ->
      targetDefined a = targetDefined b /\ targetValid a = targetValid b).
Proof.
  unfold targetsEqual. split; [|split; [|split; [|split]]].
  - rewrite !String.eqb_refl. reflexivity.
  - rewrite (String.eqb_sym (strings.TrimSpace (AccountID a))),
            (String.eqb_sym (strings.TrimSpace (Namespace a))). reflexivity.
  - intros H1 H2.
    apply andb_true_iff in H1 as [A1 N1]. apply andb_true_iff in H2 as [A2 N2].
    apply String.eqb_eq in A1, N1, A2, N2.
    rewrite A1, N1, A2, N2, !String.eqb_refl. reflexivity.
  - reflexivity.
  - intros H. apply andb_true_iff in H as [A N].
    apply String.eqb_eq in A, N.
    unfold targetDefined, targetValid, blank. rewrite A, N. split; reflexivity.
Qed.

Lemma targetsEqual_equivalence_witness :
  targetsEqual (mkTarget " A1" "N1 " "") (mkTarget "A1" " N1" "old") = true
  /\ targetDefined (mkTarget " A1" "N1 " "")
     = targetDefined (mkTarget "A1" " N1" "old").
Proof.
  split; [reflexivity|].
  destruct (targetsEqual_equivalence (mkTarget " A1" "N1 " "")
              (mkTarget "A1" " N1" "old") zeroTarget "")
    as (_ & _ & _ & _ & H).
  apply H. reflexivity.
Defined.

(** ** The resolver *)

Lemma prefixes_exclusive b :
  strings.HasPrefix b "refs/heads/" = true ->
  strings.HasPrefix b "origin/" = true -> False.
Proof.
  intros H1 H2. apply HasPrefix_inv in H1, H2.
  rewrite H1 in H2. discriminate H2.
Qed.

(** X13: the candidates are none for a blank branch and otherwise one or
    two: the trimmed branch first, then at most one stripped form, since no
    branch has both prefixes; every candidate is the end of the trimmed
    branch. *)
Theorem branchCandidates_bounds (branch : string) :
  (branchCandidates branch = [] <-> strings.TrimSpace branch = "")
  /\ length (branchCandidates branch) <= 2
  /\ (strings.TrimSpace branch <> "" ->
      head (branchCandidates branch) = Some (strings.TrimSpace branch))
  /\ ~ (strings.HasPrefix (strings.TrimSpace branch) "refs/heads/" = true
        /\ strings.HasPrefix (strings.TrimSpace branch) "origin/" = true)
  /\ (forall c, In c (branchCandidates branch) ->
        exists p, strings.TrimSpace branch = p +:+ c).
Proof.
  assert (Hex := prefixes_exclusive (strings.TrimSpace branch)).
  split; [|split; [|split; [|split]]].
  - split.
    + intros H. destruct (String.eqb_spec (strings.TrimSpace branch) "") as [E|N];
        [exact E|].
      rewrite (branchCandidates_shape _ N) in H. discriminate H.
    + apply branchCandidates_blank.
  - unfold branchCandidates.
    destruct (isEmpty (strings.TrimSpace branch)); [simpl; lia|].
    destruct (strings.HasPrefix _ "refs/heads/") eqn:H1;
      destruct (strings.HasPrefix _ "origin/") eqn:H2;
      try (exfalso; apply Hex; reflexivity); simpl; lia.
  - intros N. rewrite (branchCandidates_shape _ N). reflexivity.
  - intros [H1 H2]. exact (Hex H1 H2).
  - intros c. unfold branchCandidates, strings.TrimPrefix.
    destruct (isEmpty (strings.TrimSpace branch)); [intros []|].
    destruct (strings.HasPrefix _ "refs/heads/") eqn:H1;
      destruct (strings.HasPrefix _ "origin/") eqn:H2;
      try (exfalso; apply Hex; reflexivity).
    + intros [<-|[<-|[]]].
      * exists "". reflexivity.
      * exists "refs/heads/". apply HasPrefix_inv, H1.
    + intros [<-|[<-|[]]].
      * exists "". reflexivity.
      * exists "origin/". apply HasPrefix_inv, H2.
    + intros [<-|[]]. exists "". reflexivity.
Qed.

Lemma branchCandidates_bounds_witness :
  head (branchCandidates " origin/qa ") = Some "origin/qa"
  /\ exists p, strings.TrimSpace " origin/qa " = p +:+ "qa".
Proof.
  destruct (branchCandidates_bounds " origin/qa ") as (_ & _ & H3 & _ & H5).
  split.
  - apply H3. discriminate.
  - apply H5. right. left. reflexivity.
Defined.

Lemma branchCandidates_TrimSpace branch :
  branchCandidates (strings.TrimSpace branch) = branchCandidates branch.
Proof. unfold branchCandidates. rewrite TrimSpace_idempotent. reflexivity. Qed.

(** X14: [TargetForBranch] looks at the branch through [strings.TrimSpace]
    only: white space around the branch, Unicode white space included, does
    not change the result. *)
Theorem TargetForBranch_trims_branch (secret : Secret) (branch branch' : string) :
  strings.TrimSpace branch = strings.TrimSpace branch' ->
  TargetForBranch secret branch = TargetForBranch secret branch'.
Proof.
  intros H. unfold TargetForBranch.
  rewrite <- (branchCandidates_TrimSpace branch),
          <- (branchCandidates_TrimSpace branch'), H.
  reflexivity.
Qed.

Lemma TargetForBranch_trims_branch_witness :
  TargetForBranch secretC "  origin/qa " = TargetForBranch secretC "origin/qa".
Proof.
  apply (TargetForBranch_trims_branch secretC "  origin/qa " "origin/qa").
  reflexivity.
Defined.

Lemma overrideResult_true o t :
  overrideResult o = (t, true) ->
  t = OVault o /\ effectiveEnabled o = true
  /\ isEmpty (AccountID t) && isEmpty (Namespace t) = false.
Proof.
  unfold overrideResult.
  destruct (effectiveEnabled o); simpl; [|discriminate].
  destruct (isEmpty (AccountID (OVault o)) && isEmpty (Namespace (OVault o)))
    eqn:E; [discriminate|].
  intros [= <-]. repeat split. exact E.
Qed.

Lemma TargetForBranch_true_source (secret : Secret) (branch : string) (t : Target) :
  TargetForBranch secret branch = (t, true) ->
  isEmpty (AccountID t) && isEmpty (Namespace t) = false
  /\ ((exists o, In o (BranchOverrides secret)
                 /\ In (OName o) (branchCandidates branch)
                 /\ effectiveEnabled o = true /\ t = OVault o)
      \/ (t = Vault (Default secret)
          /\ scanCandidates (branchCandidates branch) (BranchOverrides secret)
             = None)).
Proof.
  unfold TargetForBranch.
  destruct (scanCandidates _ _) as [r|] eqn:Hs.
  - destruct (scanCandidates_some _ _ _ Hs) as (o & Ho & Hc & ->).
    intros H. apply overrideResult_true in H as (-> & He & Hraw).
    split; [exact Hraw|]. left. exists o. repeat split; assumption.
  - destruct (isEmpty _ && isEmpty _) eqn:E; [discriminate|].
    intros [= <-]. split; [exact E|]. right. split; reflexivity.
Qed.

(** X15: a target that [TargetForBranch] returns with true is the target of
    an enabled override named by a candidate of the branch, or the default
    target of the secret when no candidate names an override, and never has
    both account_id and namespace empty. *)
Theorem TargetForBranch_true_origin (secret : Secret) (branch : string) (t : Target) :
  TargetForBranch secret branch = (t, true) ->
  isEmpty (AccountID t) && isEmpty (Namespace t) = false
  /\ ((exists o, In o (BranchOverrides secret)
                 /\ In (OName o) (branchCandidates branch)
                 /\ effectiveEnabled o = true /\ t = OVault o)
      \/ (t = Vault (Default secret)
          /\ scanCandidates (branchCandidates branch) (BranchOverrides secret)
             = None)).
Proof. apply TargetForBranch_true_source. Qed.

Lemma TargetForBranch_true_origin_witness :
  isEmpty (AccountID (mkTarget "A2" "N2" ""))
  && isEmpty (Namespace (mkTarget "A2" "N2" "")) = false.
Proof.
  apply (TargetForBranch_true_origin secretC "origin/qa" (mkTarget "A2" "N2" "")).
  reflexivity.
Defined.

(** X16: on a document that [Validate] accepted, a target that
    [TargetForBranch] returns with true is valid, unless it is a default
    target that [targetDefined] rejects (white space only, left in place
    beside the overrides of the secret). *)
Theorem TargetForBranch_accepted_valid
  (quote : string -> string) (f : File) (s : Secret) (branch : string)
  (t : Target) :
  Validate quote f = None ->
  In s (VaultSecrets f) ->
  TargetForBranch s branch = (t, true) ->
  targetValid t = true
  \/ (t = Vault (Default s) /\ targetDefined t = false
      /\ BranchOverrides s <> []).
Proof.
  intros Hacc Hs Ht.
  apply Validate_nil_acceptable in Hacc as (_ & _ & Hall).
  apply list_elem_of_In in Hs.
  apply (proj1 (Forall_forall _ _) Hall) in Hs.
  destruct Hs as (_ & Hdv & Hdo & _ & Hov).
  apply TargetForBranch_true_source in Ht as [_ [(o & Ho & _ & He & ->)|[-> _]]].
  - left. apply list_elem_of_In in Ho.
    apply (proj1 (Forall_forall _ _) Hov) in Ho.
    destruct Ho as (_ & _ & Hen). apply (Hen He).
  - destruct (targetDefined (Vault (Default s))) eqn:Hd.
    + left. apply Hdv. reflexivity.
    + right. split; [reflexivity|]. split; [reflexivity|]. apply Hdo. reflexivity.
Qed.

Lemma TargetForBranch_accepted_valid_witness :
  targetValid tSpace = true
  \/ (tSpace = Vault (Default secretSpaceDefault)
      /\ targetDefined tSpace = false
      /\ BranchOverrides secretSpaceDefault <> []).
Proof.
  apply (TargetForBranch_accepted_valid quotePlain docSpaceDefault
           secretSpaceDefault "main" tSpace).
  - vm_compute. reflexivity.
  - simpl. left. reflexivity.
  - reflexivity.
Defined.

(** ** The command line *)

Lemma normalizeIter_step (args : list string) (n : nat) (a : string) :
  args !! n = Some a ->
  normalizeIter (map normalizeArg (take n args) ++ drop n args) n
  = map normalizeArg (take (S n) args) ++ drop (S n) args.
Proof.
  intros Ha.
  assert (Hlen : length (map normalizeArg (take n args)) = n).
  { rewrite length_map, length_take. apply lookup_lt_Some in Ha. lia. }
  rewrite (drop_S _ _ _ Ha), (take_S_r _ _ _ Ha), map_app, <- app_assoc.
  unfold normalizeIter.
  assert (Hn : nth n (map normalizeArg (take n args) ++ a :: drop (S n) args) ""
               = a).
  { rewrite app_nth2 by lia. rewrite Hlen, Nat.sub_diag. reflexivity. }
  rewrite Hn. cbv zeta.
  change (map normalizeArg [a]) with [normalizeArg a].
  assert (Hf : normalizeArg a
               = if negb (strings.HasPrefix a "-") || strings.HasPrefix a "--"
                    || (String.length a <=? 2)
                 then a else "-" +:+ a) by reflexivity.
  rewrite Hf. clear Hf.
  destruct (negb (strings.HasPrefix a "-") || strings.HasPrefix a "--"
            || (String.length a <=? 2)); [reflexivity|].
  rewrite insert_app_r_alt by (rewrite Hlen; lia).
  rewrite Hlen, Nat.sub_diag. reflexivity.
Qed.

Lemma normalizeArgs_fold (args : list string) (n : nat) :
  n <= length args ->
  fold_left normalizeIter (seq 0 n) args
  = map normalizeArg (take n args) ++ drop n args.
Proof.
  induction n as [|n IH]; intros Hn; [reflexivity|].
  destruct (lookup_lt_is_Some_2 args n) as [a Ha]; [lia|].
  rewrite fold_left_seq_S, IH by lia. exact (normalizeIter_step args n a Ha).
Qed.

Lemma normalizeArgs_map (args : list string) :
  normalizeArgs args = map normalizeArg args.
Proof.
  unfold normalizeArgs. destruct args as [|a args]; [reflexivity|].
  change (length (a :: args) =? 0) with false. cbv iota.
  rewrite normalizeArgs_fold by lia.
  rewrite firstn_all, drop_all, app_nil_r. reflexivity.
Qed.

Lemma normalizeArg_cases (a : string) :
  (normalizeArg a = a
   /\ (strings.HasPrefix a "-" = false \/ strings.HasPrefix a "--" = true
       \/ String.length a <= 2))
  \/ (normalizeArg a = "-" +:+ a
      /\ strings.HasPrefix a "-" = true /\ strings.HasPrefix a "--" = false
      /\ 2 < String.length a).
Proof.
  unfold normalizeArg.
  destruct (strings.HasPrefix a "-") eqn:H1; simpl; [|left; tauto].
  destruct (strings.HasPrefix a "--") eqn:H2; simpl; [left; tauto|].
  destruct (String.length a <=? 2) eqn:H3.
  - apply Nat.leb_le in H3. left. tauto.
  - apply Nat.leb_gt in H3. right. tauto.
Qed.

Lemma HasPrefix_dash_dash (a : string) :
  strings.HasPrefix a "-" = true -> strings.HasPrefix ("-" +:+ a) "--" = true.
Proof.
  intros H. apply HasPrefix_inv in H. rewrite H.
  apply (HasPrefix_app "--").
Qed.

Lemma normalizeArg_idem (a : string) : normalizeArg (normalizeArg a) = normalizeArg a.
Proof.
  destruct (normalizeArg_cases a) as [[E _]|(E & H1 & _ & _)]; rewrite E.
  - exact E.
  - unfold normalizeArg. rewrite (HasPrefix_dash_dash a H1).
    rewrite orb_true_r. reflexivity.
Qed.

(** X17: [normalizeArgs] rewrites each argument on its own and in place:
    as many arguments, in the same order; an argument that starts with one
    dash only and is longer than two bytes gets a second dash, every other
    argument is kept. *)
Theorem normalizeArgs_pointwise (args : list string) :
  length (normalizeArgs args) = length args
  /\ (forall i a, args !! i = Some a ->
        normalizeArgs args !! i = Some (normalizeArg a)
        /\ ((strings.HasPrefix a "-" = true ->
             strings.HasPrefix a "--" = false ->
             2 < String.length a -> normalizeArg a = "-" +:+ a)
            /\ (strings.HasPrefix a "-" = false -> normalizeArg a = a)
            /\ (strings.HasPrefix a "--" = true -> normalizeArg a = a)
            /\ (String.length a <= 2 -> normalizeArg a = a))).
Proof.
  rewrite normalizeArgs_map. split; [apply length_map|].
  intros i a Ha. split.
  - change (map normalizeArg args) with (normalizeArg <$> args).
    rewrite list_lookup_fmap, Ha. reflexivity.
  - unfold normalizeArg. repeat split.
    + intros -> -> H. apply Nat.leb_gt in H. rewrite H. reflexivity.
    + intros ->. reflexivity.
    + intros ->. rewrite orb_true_r. reflexivity.
    + intros H. apply Nat.leb_le in H. rewrite H, !orb_true_r. reflexivity.
Qed.

Lemma normalizeArgs_pointwise_witness :
  normalizeArgs ["-config"; "a.yaml"; "--branch"; "-b"; "-"] !! 0%nat
  = Some "--config".
Proof.
  destruct (normalizeArgs_pointwise ["-config"; "a.yaml"; "--branch"; "-b"; "-"])
    as [_ H].
  destruct (H 0%nat "-config" eq_refl) as [H1 (H2 & _)].
  rewrite H1. rewrite H2; [reflexivity|reflexivity|reflexivity|simpl; lia].
Defined.

(** X18: [normalizeArgs] is idempotent, and in its result every argument
    that starts with a dash and is longer than two bytes starts with two
    dashes. *)
Theorem normalizeArgs_idempotent (args : list string) :
  normalizeArgs (normalizeArgs args) = normalizeArgs args
  /\ (forall a, In a (normalizeArgs args) ->
        strings.HasPrefix a "-" = true -> 2 < String.length a ->
        strings.HasPrefix a "--" = true).
Proof.
  rewrite !normalizeArgs_map. split.
  - rewrite map_map. apply map_ext, normalizeArg_idem.
  - intros a Ha H1 H2. apply in_map_iff in Ha as (b & <- & _).
    destruct (normalizeArg_cases b) as [[E [H|[H|H]]]|(E & Hb & _ & _)];
      rewrite E in *.
    + congruence.
    + exact H.
    + lia.
    + apply HasPrefix_dash_dash, Hb.
Qed.

Lemma normalizeArgs_idempotent_witness :
  strings.HasPrefix "--config" "--" = true.
Proof.
  destruct (normalizeArgs_idempotent ["-config"; "a.yaml"]) as [_ H].
  apply H.
  - vm_compute. left. reflexivity.
  - reflexivity.
  - simpl. lia.
Defined.

Section BranchName.

Variable Getenv : string -> string.

Lemma firstEnv_first pre env post :
  (forall e, In e pre -> blank (Getenv e) = true) ->
  blank (Getenv env) = false ->
  firstEnv Getenv (pre ++ env :: post) = strings.TrimSpace (Getenv env).
Proof.
  intros Hpre Henv. induction pre as [|e pre IH]; simpl.
  - fold (blank (Getenv env)). rewrite Henv. reflexivity.
  - fold (blank (Getenv e)). rewrite (Hpre e) by (left; reflexivity). simpl.
    apply IH. intros e' He'. apply Hpre. right. exact He'.
Qed.

Lemma firstEnv_empty_iff vars :
  firstEnv Getenv vars = "" <-> forall e, In e vars -> blank (Getenv e) = true.
Proof.
  induction vars as [|e vars IH]; simpl.
  - split; [intros _ e []|reflexivity].
  - fold (blank (Getenv e)). destruct (blank (Getenv e)) eqn:Hb; simpl.
    + rewrite IH. split.
      * intros H e' [<-|He']; [exact Hb|apply H, He'].
      * intros H e' He'. apply H. right. exact He'.
    + split.
      * intros H. unfold blank in Hb. rewrite H in Hb. discriminate Hb.
      * intros H. specialize (H e (or_introl eq_refl)). congruence.
Qed.

Lemma firstEnv_trimmed vars :
  firstEnv Getenv vars = ""
  \/ (blank (firstEnv Getenv vars) = false
      /\ strings.TrimSpace (firstEnv Getenv vars) = firstEnv Getenv vars).
Proof.
  induction vars as [|e vars IH]; simpl; [left; reflexivity|].
  fold (blank (Getenv e)). destruct (blank (Getenv e)) eqn:Hb; simpl; [exact IH|].
  right. split; [rewrite blank_TrimSpace; exact Hb|apply TrimSpace_idempotent].
Qed.

(** X19: [resolveBranchName] returns a non-blank flag as it is, whatever
    the environment; with a blank flag it returns the trimmed value of the
    first of its five variables, in its order, whose value is not blank, and
    the empty string when there is none.  The result is empty or not blank,
    and it gives the resolver no candidate exactly when the flag is blank
    and no variable names a branch. *)
Theorem resolveBranchName_precedence (flagValue : string) :
  (blank flagValue = false -> resolveBranchName Getenv flagValue = flagValue)
  /\ (forall pre env post,
        blank flagValue = true ->
        envVars = pre ++ env :: post ->
        (forall e, In e pre -> blank (Getenv e) = true) ->
        blank (Getenv env) = false ->
        resolveBranchName Getenv flagValue = strings.TrimSpace (Getenv env))
  /\ (blank flagValue = true -> noBranchInEnv Getenv ->
      resolveBranchName Getenv flagValue = "")
  /\ (resolveBranchName Getenv flagValue = ""
      \/ blank (resolveBranchName Getenv flagValue) = false)
  /\ (branchCandidates (resolveBranchName Getenv flagValue) = []
      <-> blank flagValue = true /\ noBranchInEnv Getenv).
Proof.
  unfold resolveBranchName. fold (blank flagValue).
  split; [intros ->; reflexivity|].
  split.
  { intros pre env post -> Hvars Hpre Henv. cbn [negb]. rewrite Hvars.
    apply firstEnv_first; assumption. }
  split.
  { intros -> Hno. cbn [negb]. apply firstEnv_empty_iff. exact Hno. }
  split.
  { destruct (blank flagValue) eqn:Hb; cbn [negb]; [|right; exact Hb].
    destruct (firstEnv_trimmed envVars) as [H|[H _]]; [left|right]; exact H. }
  destruct (blank flagValue) eqn:Hb; cbn [negb].
  - split.
    + intros H. split; [reflexivity|].
      unfold noBranchInEnv. apply firstEnv_empty_iff.
      destruct (firstEnv_trimmed envVars) as [E|[_ E]]; [exact E|].
      destruct (String.eqb_spec (strings.TrimSpace (firstEnv Getenv envVars)) "")
        as [E'|N]; [congruence|].
      rewrite (branchCandidates_shape _ N) in H. discriminate H.
    + intros [_ Hno]. unfold noBranchInEnv in Hno.
      apply firstEnv_empty_iff in Hno. rewrite Hno. reflexivity.
  - split; [|intros [H _]; discriminate H].
    intros H. exfalso.
    assert (N : strings.TrimSpace flagValue <> "").
    { intros E. unfold blank in Hb. rewrite E in Hb. discriminate Hb. }
    rewrite (branchCandidates_shape _ N) in H. discriminate H.
Qed.

End BranchName.

Lemma resolveBranchName_precedence_witness :
  resolveBranchName envGit " dev " = " dev "
  /\ resolveBranchName envGit "  " = "origin/qa".
Proof.
  destruct (resolveBranchName_precedence envGit " dev ") as (H1 & _).
  destruct (resolveBranchName_precedence envGit "  ") as (_ & H2 & _).
  split.
  - apply H1. reflexivity.
  - apply (H2 ["BAMBOO_PLAN_REPOSITORY_BRANCH"; "BAMBOO_REPO_BRANCH";
               "BAMBOO_BRANCH_NAME"] "GIT_BRANCH" ["BRANCH_NAME"]).
    + reflexivity.
    + reflexivity.
    + intros e [<-|[<-|[<-|[]]]]; reflexivity.
    + reflexivity.
Defined.

(** ** The loop of [Run] *)

Section FetchLoop.

Variable quote : string -> string.
Variable fetchPassword : nat -> Target -> string * option error.
Variable branch : string.

Lemma fetched_cons s rest :
  fetched branch (s :: rest)
  = if snd (TargetForBranch s branch) then s :: fetched branch rest
    else fetched branch rest.
Proof. reflexivity. Qed.

Lemma fetchLoop_skip s rest requests results :
  snd (TargetForBranch s branch) = false ->
  fetchLoop quote fetchPassword branch (s :: rest) requests results
  = fetchLoop quote fetchPassword branch rest requests results.
Proof.
  intros H. simpl. destruct (TargetForBranch s branch) as [t en].
  simpl in H. rewrite H. reflexivity.
Qed.

Lemma fetchLoop_ok s rest requests results :
  snd (TargetForBranch s branch) = true ->
  snd (fetchPassword (length requests) (fst (TargetForBranch s branch))) = None ->
  fetchLoop quote fetchPassword branch (s :: rest) requests results
  = fetchLoop quote fetchPassword branch rest
      (requests ++ [fst (TargetForBranch s branch)])
      (results
       ++ [Name s +:+ "="
           +:+ fst (fetchPassword (length requests)
                      (fst (TargetForBranch s branch)))]).
Proof.
  intros H Hf. simpl. destruct (TargetForBranch s branch) as [t en].
  simpl in H, Hf |- *. rewrite H. simpl.
  destruct (fetchPassword (length requests) t) as [pw err].
  simpl in Hf |- *. rewrite Hf. reflexivity.
Qed.

Lemma fetchLoop_err s rest requests results e :
  snd (TargetForBranch s branch) = true ->
  snd (fetchPassword (length requests) (fst (TargetForBranch s branch)))
  = Some e ->
  fetchLoop quote fetchPassword branch (s :: rest) requests results
  = (requests ++ [fst (TargetForBranch s branch)],
     inl (wrapError ("fetch secret " +:+ quote (Name s) +:+ ": " +:+ Error e) e)).
Proof.
  intros H Hf. simpl. destruct (TargetForBranch s branch) as [t en].
  simpl in H, Hf |- *. rewrite H. simpl.
  destruct (fetchPassword (length requests) t) as [pw err].
  simpl in Hf |- *. rewrite Hf. reflexivity.
Qed.


Lemma fetchLoop_failure pre s post e : forall requests results,
  (forall k secret, fetched branch pre !! k = Some secret ->
     snd (fetchPassword (length requests + k)
            (fst (TargetForBranch secret branch))) = None) ->
  snd (TargetForBranch s branch) = true ->
  snd (fetchPassword (length requests + length (fetched branch pre))
         (fst (TargetForBranch s branch))) = Some e ->
  fetchLoop quote fetchPassword branch (pre ++ s :: post) requests results
  = (requests ++ map (fun secret => fst (TargetForBranch secret branch))
                     (fetched branch pre)
     ++ [fst (TargetForBranch s branch)],
     inl (wrapError ("fetch secret " +:+ quote (Name s) +:+ ": " +:+ Error e) e)).
Proof.
  induction pre as [|s' pre IH]; intros requests results Hall Hen Hf.
  - simpl in Hf. rewrite Nat.add_0_r in Hf.
    apply (fetchLoop_err s post requests results e Hen Hf).
  - change ((s' :: pre) ++ s :: post) with (s' :: (pre ++ s :: post)).
    rewrite fetched_cons in Hall, Hf |- *.
    destruct (snd (TargetForBranch s' branch)) eqn:Hen'.
    + pose proof (Hall 0 s' eq_refl) as H0. rewrite Nat.add_0_r in H0.
      rewrite (fetchLoop_ok s' _ requests results Hen' H0).
      rewrite IH.
      * simpl. rewrite <- !app_assoc. reflexivity.
      * intros k s2 Hs2. rewrite length_app. simpl.
        replace (length requests + 1 + k) with (length requests + S k) by lia.
        apply Hall. exact Hs2.
      * exact Hen.
      * rewrite length_app. simpl. simpl in Hf.
        replace (length requests + 1 + length (fetched branch pre))
          with (length requests + S (length (fetched branch pre))) by lia.
        exact Hf.
    + rewrite (fetchLoop_skip s' _ requests results Hen'). apply IH; assumption.
Qed.

Lemma fetchLoop_prefix secrets : forall requests results,
  exists k,
    fst (fetchLoop quote fetchPassword branch secrets requests results)
    = requests ++ take k (map (fun secret => fst (TargetForBranch secret branch))
                              (fetched branch secrets)).
Proof.
  induction secrets as [|s rest IH]; intros requests results.
  - exists 0. simpl. rewrite app_nil_r. reflexivity.
  - rewrite fetched_cons.
    destruct (snd (TargetForBranch s branch)) eqn:Hen.
    + destruct (snd (fetchPassword (length requests)
                       (fst (TargetForBranch s branch)))) as [e|] eqn:Hf.
      * exists 1. rewrite (fetchLoop_err s rest requests results e Hen Hf).
        reflexivity.
      * rewrite (fetchLoop_ok s rest requests results Hen Hf).
        destruct (IH (requests ++ [fst (TargetForBranch s branch)])
                     (results
                      ++ [Name s +:+ "="
                          +:+ fst (fetchPassword (length requests)
                                     (fst (TargetForBranch s branch)))]))
          as [k Hk].
        exists (S k). rewrite Hk. simpl. rewrite <- app_assoc. reflexivity.
    + rewrite (fetchLoop_skip s rest requests results Hen). apply IH.
Qed.


(** X21: the first request that fails ends the run: [Run] returns the error
    of the store wrapped with the name of the secret, no entry reaches
    [writeOutput], and no secret after the failing one is requested. *)
Theorem fetchLoop_first_failure
  (pre : list Secret) (s : Secret) (post : list Secret) (e : error) :
  (forall k secret, fetched branch pre !! k = Some secret ->
     snd (fetchPassword k (fst (TargetForBranch secret branch))) = None) ->
  snd (TargetForBranch s branch) = true ->
  snd (fetchPassword (length (fetched branch pre))
         (fst (TargetForBranch s branch))) = Some e ->
  fetchLoop quote fetchPassword branch (pre ++ s :: post) [] []
  = (map (fun secret => fst (TargetForBranch secret branch))
         (fetched branch pre)
     ++ [fst (TargetForBranch s branch)],
     inl (wrapError ("fetch secret " +:+ quote (Name s) +:+ ": " +:+ Error e) e))
  /\ Unwrap (wrapError ("fetch secret " +:+ quote (Name s) +:+ ": " +:+ Error e) e)
     = Some e.
Proof.
  intros Hall Hen Hf. split; [|reflexivity].
  apply (fetchLoop_failure pre s post e [] [] Hall Hen Hf).
Qed.

(** X22: whatever the store answers, the requests of the run are an initial
    part of the resolved targets of the secrets the resolver sends to the
    store: a secret the resolver skips is never requested, and the order of
    the document is kept. *)
Theorem fetchLoop_requests (secrets : list Secret) :
  exists k,
    fst (fetchLoop quote fetchPassword branch secrets [] [])
    = take k (map (fun secret => fst (TargetForBranch secret branch))
                  (fetched branch secrets)).
Proof. apply (fetchLoop_prefix secrets [] []). Qed.

End FetchLoop.


Lemma fetchLoop_first_failure_witness :
  fetchLoop quotePlain storeA "refs/heads/release"
    ([secretA] ++ secretRelease :: [secretC]) [] []
  = ([mkTarget "A1" "N1" ""; mkTarget "A3" "N3" ""],
     inl (wrapError
            ("fetch secret " +:+ quotePlain "x" +:+ ": read secret: not found")
            (errorString "read secret: not found"))).
Proof.
  apply (fetchLoop_first_failure quotePlain storeA "refs/heads/release"
           [secretA] secretRelease [secretC]
           (errorString "read secret: not found")).
  - intros [|k] secret; simpl; intros [= <-]; reflexivity.
  - reflexivity.
  - reflexivity.
Defined.

(** ** The alias field after normalisation *)

Lemma existsb_map {A B} (g : A -> B) (p : B -> bool) (l : list A) :
  existsb p (map g l) = existsb (fun x => p (g x)) l.
Proof. induction l as [|x l IH]; simpl; [reflexivity|rewrite IH; reflexivity]. Qed.

Lemma nth_Secret_clearAlias f i :
  nth i (VaultSecrets (File_clearAlias f)) zeroSecret
  = Secret_clearAlias (nth i (VaultSecrets f) zeroSecret).
Proof.
  unfold File_clearAlias. simpl.
  change zeroSecret with (Secret_clearAlias zeroSecret) at 1. apply map_nth.
Qed.

Lemma nth_BranchOverride_clearAlias s j :
  nth j (BranchOverrides (Secret_clearAlias s)) zeroOverride
  = BranchOverride_clearAlias (nth j (BranchOverrides s) zeroOverride).
Proof.
  unfold Secret_clearAlias. simpl.
  change zeroOverride with (BranchOverride_clearAlias zeroOverride) at 1.
  apply map_nth.
Qed.

Lemma atSecret_clearAlias f i P :
  atSecret (File_clearAlias f) i P
  = atSecret f i (fun s => P (Secret_clearAlias s)).
Proof.
  unfold atSecret, File_clearAlias. simpl.
  change (map Secret_clearAlias (VaultSecrets f))
    with (Secret_clearAlias <$> VaultSecrets f).
  rewrite list_lookup_fmap. destruct (VaultSecrets f !! i); reflexivity.
Qed.

Lemma atOverride_clearAlias f i j P :
  atOverride (File_clearAlias f) i j P
  = atOverride f i j (fun s o =>
      P (Secret_clearAlias s) (BranchOverride_clearAlias o)).
Proof.
  unfold atOverride. rewrite atSecret_clearAlias. unfold atSecret.
  destruct (VaultSecrets f !! i) as [s|]; [|reflexivity].
  unfold Secret_clearAlias at 1. simpl.
  change (map BranchOverride_clearAlias (BranchOverrides s))
    with (BranchOverride_clearAlias <$> BranchOverrides s).
  rewrite list_lookup_fmap. destruct (BranchOverrides s !! j); reflexivity.
Qed.

Lemma violates_clearAlias f v : violates (File_clearAlias f) v = violates f v.
Proof.
  destruct v; cbn [violates];
    rewrite ?atSecret_clearAlias, ?atOverride_clearAlias.
  - unfold File_clearAlias. simpl. rewrite length_map. reflexivity.
  - reflexivity.
  - unfold atSecret. destruct (VaultSecrets f !! i) as [s|]; [|reflexivity].
    unfold File_clearAlias. simpl.
    rewrite firstn_map, existsb_map. reflexivity.
  - reflexivity.
  - unfold atSecret. destruct (VaultSecrets f !! i) as [s|]; [|reflexivity].
    simpl. rewrite length_map. reflexivity.
  - reflexivity.
  - unfold atOverride, atSecret.
    destruct (VaultSecrets f !! i) as [s|]; [|reflexivity].
    destruct (BranchOverrides s !! j) as [o|]; [|reflexivity].
    simpl. rewrite firstn_map, existsb_map. reflexivity.
  - reflexivity.
  - reflexivity.
  - reflexivity.
  - reflexivity.
Qed.

Lemma documentChecks_clearAlias f :
  documentChecks (File_clearAlias f) = documentChecks f.
Proof.
  unfold documentChecks. f_equal.
  assert (Hlen : length (VaultSecrets (File_clearAlias f))
                 = length (VaultSecrets f)).
  { unfold File_clearAlias. simpl. apply length_map. }
  rewrite Hlen. apply flat_map_ext. intros i.
  unfold secretChecks. rewrite nth_Secret_clearAlias.
  unfold Secret_clearAlias at 1. simpl. rewrite length_map. reflexivity.
Qed.

Lemma issueOf_clearAlias quote f v :
  issueOf quote (File_clearAlias f) v = issueOf quote f v.
Proof.
  destruct v; cbn [issueOf];
    rewrite ?nth_Secret_clearAlias, ?nth_BranchOverride_clearAlias; reflexivity.
Qed.

Lemma Validate_clearAlias quote f :
  Validate quote (File_clearAlias f) = Validate quote f.
Proof.
  rewrite !Validate_violations. unfold violationsOf.
  rewrite documentChecks_clearAlias.
  rewrite (List.filter_ext _ _ (violates_clearAlias f)).
  rewrite (map_ext _ _ (issueOf_clearAlias quote f)). reflexivity.
Qed.

Lemma scanOverrides_clearAlias c overrides :
  scanOverrides c (map BranchOverride_clearAlias overrides)
  = option_map (fun r => (Target_clearAlias (fst r), snd r))
               (scanOverrides c overrides).
Proof.
  induction overrides as [|o rest IH]; simpl; [reflexivity|].
  destruct (String.eqb (OName o) c); simpl; [|exact IH].
  unfold overrideResult. simpl.
  change (effectiveEnabled (BranchOverride_clearAlias o))
    with (effectiveEnabled o).
  destruct (effectiveEnabled o); simpl; [|reflexivity].
  destruct (isEmpty (AccountID (OVault o)) && isEmpty (Namespace (OVault o)));
    reflexivity.
Qed.

Lemma scanCandidates_clearAlias cs overrides :
  scanCandidates cs (map BranchOverride_clearAlias overrides)
  = option_map (fun r => (Target_clearAlias (fst r), snd r))
               (scanCandidates cs overrides).
Proof.
  induction cs as [|c cs IH]; simpl; [reflexivity|].
  rewrite scanOverrides_clearAlias.
  destruct (scanOverrides c overrides); simpl; [reflexivity|exact IH].
Qed.

(** X23: past normalisation the alias field is never read: two documents
    that differ in alias fields only get the same result from [Validate],
    issue for issue, and [TargetForBranch] takes the same decision for
    them, its target being the same up to the alias field. *)
Theorem alias_field_ignored
  (quote : string -> string) (f f' : File) (s : Secret) (branch : string) :
  (File_clearAlias f = File_clearAlias f' ->
   Validate quote f = Validate quote f')
  /\ TargetForBranch (Secret_clearAlias s) branch
     = (Target_clearAlias (fst (TargetForBranch s branch)),
        snd (TargetForBranch s branch)).
Proof.
  split.
  - intros H. rewrite <- (Validate_clearAlias quote f), H.
    apply Validate_clearAlias.
  - unfold TargetForBranch, Secret_clearAlias. simpl.
    rewrite scanCandidates_clearAlias.
    destruct (scanCandidates _ (BranchOverrides s)); simpl; [reflexivity|].
    destruct (isEmpty (AccountID (Vault (Default s)))
              && isEmpty (Namespace (Vault (Default s)))); reflexivity.
Qed.

Lemma alias_field_ignored_witness :
  Validate quotePlain (File_Normalize docLegacy)
  = Validate quotePlain (File_clearAlias (File_Normalize docLegacy)).
Proof.
  apply (alias_field_ignored quotePlain (File_Normalize docLegacy)
           (File_clearAlias (File_Normalize docLegacy)) secretA "").
  reflexivity.
Defined.

(** ** [Load] *)

(** X24: once the bytes are parsed, [Load] returns either the normalised
    document and nil, exactly when the normalised document keeps the
    invariants of the data model, or nil and a [ValidationError] with at
    least one issue; never both, never neither. *)
Theorem LoadParsed_outcome (quote : string -> string) (cfg : File) :
  (acceptable (File_Normalize cfg)
   /\ LoadParsed quote cfg = (Some (File_Normalize cfg), None))
  \/ (~ acceptable (File_Normalize cfg)
      /\ exists issues,
           issues <> []
           /\ issues = map (issueOf quote (File_Normalize cfg))
                           (violationsOf (File_Normalize cfg))
           /\ LoadParsed quote cfg
              = (None, Some (ValidationErrorPtr (mkValidationError issues)))).
Proof.
  unfold LoadParsed.
  destruct (Validate quote (File_Normalize cfg)) as [e|] eqn:HV.
  - right. split.
    + intros Hacc. apply (Validate_nil_acceptable quote) in Hacc. congruence.
    + rewrite Validate_violations in HV.
      destruct (map _ _) as [|x l] eqn:E; [discriminate HV|].
      injection HV as <-. exists (x :: l).
      split; [discriminate|]. split; reflexivity.
  - left. split; [apply (Validate_nil_acceptable quote), HV|reflexivity].
Qed.

Lemma LoadParsed_outcome_witness :
  LoadParsed quotePlain docLegacy = (Some (File_Normalize docLegacy), None).
Proof.
  destruct (LoadParsed_outcome quotePlain docLegacy) as [[_ H]|[Hn _]];
    [exact H|].
  exfalso. apply Hn. apply (Validate_nil_acceptable quotePlain).
  vm_compute. reflexivity.
Defined.
